(** * K-DIN monthly report dashboard ([app.py]): model and properties

    The dashboard is one Streamlit script.  Every user interaction re-runs it
    from the top: it builds the backend client from the secret store, asks the
    backend for the monthly rows (through a memoised fetcher), derives the
    filter options, filters the rows client-side, aggregates them per
    organization group and hands a top-N selection to the chart.

    The script is embedded as a program in a small state-and-exception monad
    ([App]); the dataframe operations it calls are embedded as list functions
    next to it. *)

From Stdlib Require Import ZArith.
From stdpp Require Import base option list sorting gmap strings pretty.

Local Open Scope Z_scope.

(** ** Rows and frames *)

(** A row returned by [rpc_monthly_org_reports].  [orgType] is [og.type] of
    the backend, which can be null (the script's own WHERE clause uses
    [IS DISTINCT FROM] for that reason); the counts are the integers of the
    backend's answer. *)
Record Row := {
  month : string;
  orgGroupId : string;
  orgGroupName : string;
  orgType : option string;
  unique_users : Z;
  session_count : Z;
  report_count : Z;
}.

#[global] Instance Row_eq_dec : EqDecision Row.
Proof. solve_decision. Defined.

(** A dataframe is the list of its rows, in index order. *)
Abbreviation DataFrame := (list Row).

(** [df.empty] *)
Definition empty {A} (df : list A) : bool :=
  match df with [] => true | _ => false end.

(** Truth value of a Python list: [if selected_months:]. *)
Definition truthy {A} (l : list A) : bool := negb (empty l).

(** The organization-type selector has three options. *)
Inductive TypeOption := Modu | PaAN | PaAN_ioe.

#[global] Instance TypeOption_eq_dec : EqDecision TypeOption.
Proof. solve_decision. Defined.

#[global] Instance TypeOption_countable : Countable TypeOption.
Proof.
  refine (inj_countable'
    (λ t, match t with Modu => 0%nat | PaAN => 1%nat | PaAN_ioe => 2%nat end)
    (λ n, match n with 0%nat => Modu | 1%nat => PaAN | _ => PaAN_ioe end) _).
  by intros [].
Defined.

(** The option texts of the selector, as shown to the user. *)
Definition type_label (t : TypeOption) : string :=
  match t with
  | Modu => "모두"
  | PaAN => "PaAN"
  | PaAN_ioe => "PaAN 이외"
  end.

(** ** Library operations used by the script *)

Module Pandas.

(** [Series.unique()]: the distinct values in order of first appearance,
    collected by one pass that appends each value not seen before. *)
Section Unique.
Context {A : Type} `{EqDecision A}.

Definition unique_step (seen : list A) (x : A) : list A :=
  if decide (x ∈ seen) then seen else seen ++ [x].

Definition unique (col : list A) : list A := foldl unique_step [] col.
End Unique.

(** A stable sort by a boolean "less or equal": each element is inserted in
    front of the first element it is less than or equal to.  Python's [sorted]
    and pandas' multi-column [sort_values] are stable. *)
Section StableSort.
Context {A : Type} (leb : A → A → bool).

Fixpoint insert_sorted (x : A) (l : list A) : list A :=
  match l with
  | [] => [x]
  | y :: l' => if leb x y then x :: l else y :: insert_sorted x l'
  end.

Definition stable_sort (l : list A) : list A := foldr insert_sorted [] l.
End StableSort.

(** [df[df[col].isin(values)]] *)
Definition isin (col : Row → string) (values : list string) (df : DataFrame)
  : DataFrame :=
  filter (λ r, col r ∈ values) df.

(** [df.head(n)]: the first [n] rows, or all but the last [-n] when [n] is
    negative. *)
Definition head {A} (n : Z) (df : list A) : list A :=
  if bool_decide (0 ≤ n) then take (Z.to_nat n) df
  else take (length df - Z.to_nat (- n))%nat df.

(** Order of [sort_values(["month", "orgGroupName"])]: by month, then by
    organization name, both ascending. *)
Definition month_org_leb (r1 r2 : Row) : bool :=
  match String.compare (month r1) (month r2) with
  | Lt => true
  | Eq => String.leb (orgGroupName r1) (orgGroupName r2)
  | Gt => false
  end.

Definition sort_values_month_org (df : DataFrame) : DataFrame :=
  stable_sort month_org_leb df.

(** *** groupby([orgGroupId, orgGroupName, orgType]).agg(sum, sum) *)

(** A group key is the tuple of the three key columns. *)
Definition GroupKey : Type := string * string * string.

(** One row of the aggregated frame. *)
Record Total := {
  group_key : GroupKey;
  total_sessions : Z;
  total_reports : Z;
}.

#[global] Instance Total_eq_dec : EqDecision Total.
Proof. solve_decision. Defined.

(** The key of a row.  [groupby] runs with its default [dropna=True]: a row
    with a null key column belongs to no group. *)
Definition group_of (r : Row) : option GroupKey :=
  match orgType r with
  | Some t => Some (orgGroupId r, orgGroupName r, t)
  | None => None
  end.

Definition lex (c1 c2 : comparison) : comparison :=
  match c1 with Eq => c2 | _ => c1 end.

(** Tuple order of the keys; [groupby] (default [sort=True]) lists the groups
    in this order. *)
Definition key_compare (k1 k2 : GroupKey) : comparison :=
  lex (String.compare k1.1.1 k2.1.1)
      (lex (String.compare k1.1.2 k2.1.2) (String.compare k1.2 k2.2)).

(** A column of integers is a column of 64-bit signed integers ([int64], the
    type the library gives a column of integers within that range); [sum]
    adds in that type, so a sum that leaves the range wraps around. *)
Definition int64 (z : Z) : Prop := - 2 ^ 63 ≤ z < 2 ^ 63.

Definition wrap64 (z : Z) : Z := (z + 2 ^ 63) mod 2 ^ 64 - 2 ^ 63.

(** Add one row's counts to the accumulator of its group, in a list of
    accumulators kept in key order. *)
Fixpoint accumulate (k : GroupKey) (sessions reports : Z) (acc : list Total)
  : list Total :=
  match acc with
  | [] => [{| group_key := k; total_sessions := wrap64 sessions;
              total_reports := wrap64 reports |}]
  | g :: acc' =>
      match key_compare k (group_key g) with
      | Eq => {| group_key := k;
                 total_sessions := wrap64 (total_sessions g + sessions);
                 total_reports := wrap64 (total_reports g + reports) |} :: acc'
      | Lt => {| group_key := k; total_sessions := wrap64 sessions;
                 total_reports := wrap64 reports |} :: acc
      | Gt => g :: accumulate k sessions reports acc'
      end
  end.

Definition groupby_step (acc : list Total) (r : Row) : list Total :=
  match group_of r with
  | Some k => accumulate k (session_count r) (report_count r) acc
  | None => acc
  end.

Definition groupby_agg (df : DataFrame) : list Total :=
  foldl groupby_step [] df.

(** *** sort_values(one column, ascending=False) *)

(** On one column [sort_values] sorts with its default [kind="quicksort"],
    which the library documents as not stable: the result is the rows in
    descending order of the column, and the order among rows with equal
    values is whatever the sorting routine of the installed numpy produces.
    The routine is therefore an interface with exactly that contract. *)
Class Argsort := {
  sort_values_desc : ∀ {A : Type}, (A → Z) → list A → list A;
  sort_values_desc_perm :
    ∀ {A : Type} (by' : A → Z) (l : list A), sort_values_desc by' l ≡ₚ l;
  sort_values_desc_sorted :
    ∀ {A : Type} (by' : A → Z) (l : list A),
      StronglySorted (λ a b, by' b ≤ by' a) (sort_values_desc by' l);
}.

End Pandas.

Import Pandas.

(** ** The backend and the client library *)

(** Arguments of the remote procedure [rpc_monthly_org_reports]. *)
Record Payload := {
  p_type : option string;
  p_months : option (list string);
  p_orgs : option (list string);
}.

#[global] Instance Payload_eq_dec : EqDecision Payload.
Proof. solve_decision. Defined.

(** [create_client(url, key)] *)
Record Client := { supabase_url : string; supabase_key : string }.

Inductive Exn :=
| StreamlitSecretNotFoundError
| KeyError (key : string)
| SupabaseException (msg : string)
| APIError (msg : string)
| OverflowError.

(** ** The Streamlit runtime *)

(** One row of the chart's data frame: a row of the totals with its label. *)
Record PlotRow := { plot_total : Total; label : string }.

(** One row of the melted ("long") chart frame. *)
Record LongRow := {
  long_label : string;
  metric : string;
  value : Z;
  metric_label : option string;
}.

(** What the script puts on the page, in order. *)
Inductive Element :=
| set_page_config (page_title : string)
| title (body : string)
| divider
| slider (text : string) (min_value max_value chosen step : Z)
| subheader (body : string)
| selectbox (text : string) (options : list string) (chosen : string)
| markdown (body : string)
| multiselect (text : string) (options default selected : list string)
| info (body : string)
| warning (body : string)
| dataframe (columns : list string) (rows : DataFrame)
| dataframe_totals (rows : list Total)
| altair_chart (data : list LongRow) (x_sort : list string)
| expander_code (type_option : string) (months orgs : list string).

#[global] Instance PlotRow_eq_dec : EqDecision PlotRow.
Proof. solve_decision. Defined.

#[global] Instance LongRow_eq_dec : EqDecision LongRow.
Proof. solve_decision. Defined.

#[global] Instance Element_eq_dec : EqDecision Element.
Proof. solve_decision. Defined.

(** Key of a memoised call of the fetcher: its argument tuple. *)
Definition CacheKey : Type :=
  TypeOption * option (list string) * option (list string).

(** What lives across the statements of one run: the page built so far, the
    two caches of the process ([st.cache_resource], [st.cache_data]) and the
    calls made to the backend. *)
Record Session := {
  ui : list Element;
  resource_cache : option Client;
  data_cache : gmap CacheKey (DataFrame * Z);
  rpc_log : list Payload;
}.

(** What a run reads from outside: the secret store ([None]: the process has
    no secrets file at all), the backend's answer to a call (the rows, a null
    payload, or an error), the client library's format check, the clock in
    seconds, and the state of the four widgets ([None]: not touched yet). *)
Record Env := {
  secret_store : option (gmap string string);
  execute : Client → Payload → Exn + option DataFrame;
  credentials_ok : string → string → bool;
  clock : Z;
  slider_state : option Z;
  selectbox_state : option TypeOption;
  month_filter : option (list string);
  org_filter : option (list string);
}.

(** The secrets the run can read: those of the store, none without a store. *)
Definition secrets (env : Env) : gmap string string :=
  default ∅ (secret_store env).

(** A statement either goes on with a value, raises, or stops the script
    ([st.stop()]). *)
Inductive Halt := Raised (e : Exn) | Stopped.

Definition App (A : Type) : Type := Session → (Halt + A) * Session.

Definition ret {A} (a : A) : App A := λ s, (inr a, s).

Definition bind {A B} (m : App A) (k : A → App B) : App B := λ s,
  match m s with
  | (inl h, s') => (inl h, s')
  | (inr a, s') => k a s'
  end.

Notation "'let*' x ':=' m 'in' k" := (bind m (λ x, k))
  (at level 10, x pattern, m at level 100, k at level 200).

Definition raise {A} (e : Exn) : App A := λ s, (inl (Raised e), s).

Definition stop {A} : App A := λ s, (inl Stopped, s).

Definition emit (e : Element) : App unit := λ s,
  (inr (), {| ui := ui s ++ [e]; resource_cache := resource_cache s;
              data_cache := data_cache s; rpc_log := rpc_log s |}).

(** A widget shows itself and returns its current value: the default until
    the user touches it, the user's choice afterwards. *)
Definition st_slider (env : Env) (text : string) (lo hi dflt step : Z) : App Z :=
  let v := default dflt (slider_state env) in
  let* _ := emit (slider text lo hi v step) in ret v.

Definition st_selectbox (env : Env) (text : string) (options : list TypeOption)
    (dflt : TypeOption) : App TypeOption :=
  let v := default dflt (selectbox_state env) in
  let* _ := emit (selectbox text (type_label <$> options) (type_label v)) in
  ret v.

Definition st_multiselect (state : option (list string)) (text : string)
    (options dflt : list string) : App (list string) :=
  let v := default dflt state in
  let* _ := emit (multiselect text options dflt v) in ret v.

(** [st.secrets[key]]: the store is loaded on first use, which fails when
    there is none; a key the store does not have is a [KeyError]. *)
Definition secrets_getitem (env : Env) (key : string) : App string :=
  match secret_store env with
  | None => raise StreamlitSecretNotFoundError
  | Some store =>
      match store !! key with
      | Some v => ret v
      | None => raise (KeyError key)
      end
  end.

(** Python's [a or b] on two optional strings: [a] unless it is [None] or
    empty. *)
Definition py_or (a b : option string) : option string :=
  match a with
  | Some s => if decide (s = "") then b else a
  | None => b
  end.

(** [create_client]: both arguments are required, then the client library
    checks their format (the URL's, in the versions that check one only). *)
Definition create_client (env : Env) (url : string) (key : option string)
  : App Client :=
  if decide (url = "") then raise (SupabaseException "supabase_url is required")
  else match key with
       | None => raise (SupabaseException "supabase_key is required")
       | Some k =>
           if decide (k = "")
           then raise (SupabaseException "supabase_key is required")
           else if credentials_ok env url k
           then ret {| supabase_url := url; supabase_key := k |}
           else raise (SupabaseException "Invalid URL")
       end.

(** [@st.cache_resource]: the value of the first successful call is kept for
    the life of the process. *)
Definition cache_resource (body : App Client) : App Client := λ s,
  match resource_cache s with
  | Some c => (inr c, s)
  | None =>
      match body s with
      | (inr c, s') =>
          (inr c, {| ui := ui s'; resource_cache := Some c;
                     data_cache := data_cache s'; rpc_log := rpc_log s' |})
      | (inl h, s') => (inl h, s')
      end
  end.

(** [@st.cache_data(ttl=...)]: an entry stored at time [stored] answers the
    calls with the same arguments made while [now < stored + ttl]; any other
    call runs the function and stores its value with the current time. *)
Definition cache_lookup (ttl now : Z) (key : CacheKey) (s : Session)
  : option DataFrame :=
  match data_cache s !! key with
  | Some (v, stored) => if bool_decide (now < stored + ttl) then Some v else None
  | None => None
  end.

Definition cache_data (ttl now : Z) (key : CacheKey) (body : App DataFrame)
  : App DataFrame := λ s,
  match cache_lookup ttl now key s with
  | Some v => (inr v, s)
  | None =>
      match body s with
      | (inr v, s') =>
          (inr v, {| ui := ui s'; resource_cache := resource_cache s';
                     data_cache := <[key := (v, now)]> (data_cache s');
                     rpc_log := rpc_log s' |})
      | (inl h, s') => (inl h, s')
      end
  end.

(** [supabase.rpc("rpc_monthly_org_reports", payload).execute()]: one call to
    the backend; an error of the call is raised. *)
Definition rpc (env : Env) (supabase : Client) (payload : Payload)
  : App (option DataFrame) := λ s,
  let s' := {| ui := ui s; resource_cache := resource_cache s;
               data_cache := data_cache s; rpc_log := rpc_log s ++ [payload] |} in
  match execute env supabase payload with
  | inl e => (inl (Raised e), s')
  | inr data => (inr data, s')
  end.

(** ** The script *)

(** Lines 7-14.  The two [get]s run after line 9 has read the URL, hence
    with the store loaded; they return [None] for a key it does not have. *)
Definition init_supabase (env : Env) : App Client :=
  cache_resource (
    let* url := secrets_getitem env "SUPABASE_URL" in
    let key := py_or (secrets env !! "SUPABASE_SECRET_KEY")
                     (secrets env !! "SUPABASE_PUB_KEY") in
    create_client env url key).

(** Lines 33-38 (the clause is computed and not used afterwards). *)
Definition where_clause (type_option : TypeOption) : string :=
  match type_option with
  | Modu => ""
  | PaAN => "WHERE og.type = 'PaAN'"
  | PaAN_ioe => "WHERE (og.type IS DISTINCT FROM 'PaAN')"
  end.

(** [months or None] *)
Definition or_None (l : option (list string)) : option (list string) :=
  match l with
  | Some (_ :: _) => l
  | _ => None
  end.

(** Lines 42-46. *)
Definition payload (type_option : TypeOption) (months orgs : option (list string))
  : Payload :=
  {| p_type := match type_option with
               | Modu => None
               | PaAN => Some "PaAN"
               | PaAN_ioe => Some "NOT_PaAN"
               end;
     p_months := or_None months;
     p_orgs := or_None orgs |}.

(** Lines 48-51: the frame built from [res.data]. *)
Definition frame_of (data : option DataFrame) : DataFrame :=
  let df := default [] data in
  if negb (empty df) then sort_values_month_org df else df.

Definition ttl : Z := 300.

(** Lines 40-51. *)
Definition fetch_data (env : Env) (supabase : Client) (type_option : TypeOption)
    (months orgs : option (list string)) : App DataFrame :=
  cache_data ttl (clock env) (type_option, months, orgs) (
    let* res := rpc env supabase (payload type_option months orgs) in
    ret (frame_of res)).

(** [sorted(...)] on strings. *)
Definition sorted (l : list string) : list string :=
  stable_sort String.leb l.

(** Lines 59-60. *)
Definition all_months (df : DataFrame) : list string :=
  sorted (unique (month <$> df)).

Definition all_orgs (df : DataFrame) : list string :=
  unique (orgGroupName <$> df).

(** Lines 83-87. *)
Definition filtered (df : DataFrame) (selected_months selected_orgs : list string)
  : DataFrame :=
  let filtered := df in
  let filtered :=
    if truthy selected_months then isin month selected_months filtered
    else filtered in
  let filtered :=
    if truthy selected_orgs then isin orgGroupName selected_orgs filtered
    else filtered in
  filtered.

Definition display_cols : list string :=
  ["month"; "orgGroupName"; "orgType"; "unique_users"; "session_count";
   "report_count"].

(** Lines 102-108. *)
Definition totals `{Argsort} (filtered : DataFrame) : list Total :=
  sort_values_desc total_reports (groupby_agg filtered).

(** Line 113. *)
Definition plot_df (totals : list Total) (top_n : Z) : list PlotRow :=
  (λ x, {| plot_total := x; label := (group_key x).1.2 |}) <$> head top_n totals.

(** Line 115. *)
Definition org_order `{Argsort} (plot_df : list PlotRow) : list string :=
  label <$> sort_values_desc (total_reports ∘ plot_total) plot_df.

Definition metric_name_map (metric : string) : option string :=
  if decide (metric = "total_reports") then Some "Reports"
  else if decide (metric = "total_sessions") then Some "Sessions"
  else None.

(** Lines 117-128: one block of rows per value column, in the order of the
    frame, then the display name of the metric. *)
Definition plot_long (plot_df : list PlotRow) : list LongRow :=
  let melt (var_name : string) (col : Total → Z) :=
    (λ p, {| long_label := label p; metric := var_name;
             value := col (plot_total p);
             metric_label := metric_name_map var_name |}) <$> plot_df in
  melt "total_reports" total_reports ++ melt "total_sessions" total_sessions.

(** [st.dataframe(frame)] of line 93 sends the rows to the browser in a
    columnar format with integers of 64 bits; a count that does not fit in
    64 bits cannot be converted, and the call raises.  (The totals of line
    111 are 64-bit sums and always convert.) *)
Definition fits_64_bits (z : Z) : Prop := - 2 ^ 63 ≤ z < 2 ^ 64.

Definition serialisable (r : Row) : Prop :=
  fits_64_bits (unique_users r) ∧ fits_64_bits (session_count r) ∧
  fits_64_bits (report_count r).

#[global] Instance serialisable_dec (r : Row) : Decision (serialisable r).
Proof. unfold serialisable, fits_64_bits. apply _. Defined.

Definition st_dataframe (columns : list string) (rows : DataFrame) : App unit :=
  if decide (Forall serialisable rows) then emit (dataframe columns rows)
  else raise OverflowError.

Definition msg_no_results : string :=
  "조회 결과가 없습니다. 조건을 바꿔보세요.".

Definition msg_no_filter_match : string :=
  "필터 결과가 없습니다. 월 또는 조직 선택을 조정해 주세요.".

(** Lines 55-154: the page built from the fetched frame. *)
Definition page `{Argsort} (env : Env) (top_n : Z) (type_option : TypeOption)
    (df : DataFrame) : App unit :=
  let* _ :=
    if empty df then let* _ := emit (info msg_no_results) in stop else ret () in
  let all_months := all_months df in
  let all_orgs := all_orgs df in
  let* _ := emit (markdown "**월(month) 필터**") in
  let* selected_months :=
    st_multiselect (month_filter env) "월을 선택하세요" all_months all_months in
  let* _ := emit (markdown "**조직(OrgGroupName) 필터**") in
  let* selected_orgs :=
    st_multiselect (org_filter env) "조직을 선택하세요" all_orgs all_orgs in
  let* _ := emit divider in
  let* _ := emit (subheader "월별 통계 테이블") in
  let filtered := filtered df selected_months selected_orgs in
  let* _ :=
    if empty filtered then emit (warning msg_no_filter_match)
    else st_dataframe display_cols filtered in
  let* _ := emit divider in
  let* _ :=
    emit (subheader "조직별 총 리포트 수 (표 + 세로막대 그래프)") in
  let* _ :=
    if empty filtered then emit (info "집계할 데이터가 없습니다.")
    else
      let totals := totals filtered in
      let* _ := emit (markdown "**조직별 리포트/세션 총합**") in
      let* _ := emit (dataframe_totals totals) in
      let plot_df := plot_df totals top_n in
      let org_order := org_order plot_df in
      let plot_long := plot_long plot_df in
      let* _ := emit (markdown ("**그룹 막대 그래프 (상위 " +:+ pretty top_n
                                +:+ "개 조직 · Reports & Sessions)**")) in
      emit (altair_chart plot_long org_order) in
  emit (expander_code (type_label type_option) selected_months selected_orgs).

(** Lines 16-53, then the page: one run of the script. *)
Definition app `{Argsort} (env : Env) : App unit :=
  let* supabase := init_supabase env in
  let* _ := emit (set_page_config "K-DIN 월별 리포트 대시보드") in
  let* _ := emit (title "K-DIN 월별 리포트 대시보드") in
  let* _ := emit divider in
  let* top_n :=
    st_slider env "그래프: 상위 N개 조직(총 리포트 수 기준)" 5 50 25 5 in
  let* _ := emit (subheader "통계 필터") in
  let* type_option :=
    st_selectbox env "조직 유형(og.type) 필터" [Modu; PaAN; PaAN_ioe] Modu in
  let* df := fetch_data env supabase type_option None None in
  page env top_n type_option df.

(** Lines 16-53 on their own: the run up to the fetch, with the values the
    page is built from. *)
Definition fetch_stage (env : Env) : App (Z * TypeOption * DataFrame) :=
  let* supabase := init_supabase env in
  let* _ := emit (set_page_config "K-DIN 월별 리포트 대시보드") in
  let* _ := emit (title "K-DIN 월별 리포트 대시보드") in
  let* _ := emit divider in
  let* top_n :=
    st_slider env "그래프: 상위 N개 조직(총 리포트 수 기준)" 5 50 25 5 in
  let* _ := emit (subheader "통계 필터") in
  let* type_option :=
    st_selectbox env "조직 유형(og.type) 필터" [Modu; PaAN; PaAN_ioe] Modu in
  let* df := fetch_data env supabase type_option None None in
  ret (top_n, type_option, df).

(** A run starts on an empty page and with an empty call log; the caches are
    those the process holds. *)
Definition start (client : option Client)
    (cache : gmap CacheKey (DataFrame * Z)) : Session :=
  {| ui := []; resource_cache := client; data_cache := cache; rpc_log := [] |}.

(** ** Vocabulary of the properties *)

(** The stable descending sort by an integer column: one routine that meets
    the contract of [Argsort]. *)
Definition stable_desc {A} (by' : A → Z) (l : list A) : list A :=
  stable_sort (λ a b, bool_decide (by' b ≤ by' a)) l.

(** The rows of a frame that belong to the group with key [k]. *)
Definition rows_of_group (k : GroupKey) (df : DataFrame) : DataFrame :=
  filter (λ r, group_of r = Some k) df.

(** The sum of a column over a frame. *)
Definition column_sum (col : Row → Z) (df : DataFrame) : Z :=
  foldr (λ r a, col r + a) 0 df.

(** Accumulators listed in strictly ascending key order. *)
Definition keys_sorted (acc : list Total) : Prop :=
  StronglySorted (λ a b, key_compare (group_key a) (group_key b) = Lt) acc.

(** The accumulator of a key, if there is one. *)
Fixpoint find_group (k : GroupKey) (acc : list Total) : option Total :=
  match acc with
  | [] => None
  | g :: acc' => if decide (group_key g = k) then Some g else find_group k acc'
  end.

(** The aggregation in the integers of arithmetic, where no sum wraps: the
    frame of the sums as the claims speak of them. *)
Fixpoint exact_accumulate (k : GroupKey) (sessions reports : Z)
    (acc : list Total) : list Total :=
  match acc with
  | [] => [{| group_key := k; total_sessions := sessions;
              total_reports := reports |}]
  | g :: acc' =>
      match key_compare k (group_key g) with
      | Eq => {| group_key := k; total_sessions := total_sessions g + sessions;
                 total_reports := total_reports g + reports |} :: acc'
      | Lt => {| group_key := k; total_sessions := sessions;
                 total_reports := reports |} :: acc
      | Gt => g :: exact_accumulate k sessions reports acc'
      end
  end.

Definition exact_step (acc : list Total) (r : Row) : list Total :=
  match group_of r with
  | Some k => exact_accumulate k (session_count r) (report_count r) acc
  | None => acc
  end.

Definition exact_groupby (df : DataFrame) : list Total := foldl exact_step [] df.

(** The accumulator of [k] after one more row with the given counts. *)
Definition added (k : GroupKey) (sessions reports : Z) (old : option Total)
  : Total :=
  match old with
  | Some g => {| group_key := k; total_sessions := total_sessions g + sessions;
                 total_reports := total_reports g + reports |}
  | None => {| group_key := k; total_sessions := sessions;
               total_reports := reports |}
  end.

(** A row of sums as 64-bit integers. *)
Definition wrap_total (g : Total) : Total :=
  {| group_key := group_key g; total_sessions := wrap64 (total_sessions g);
     total_reports := wrap64 (total_reports g) |}.

(** The counts of a row fit the [int64] columns. *)
Definition counts_int64 (r : Row) : Prop :=
  int64 (unique_users r) ∧ int64 (session_count r) ∧ int64 (report_count r).

(** No group of the frame has a sum outside the range of [int64]. *)
Definition group_sums_fit (df : DataFrame) : Prop :=
  ∀ k, int64 (column_sum session_count (rows_of_group k df)) ∧
       int64 (column_sum report_count (rows_of_group k df)).

(** In [col], the value [x] makes its first appearance before [y] does. *)
Definition first_seen_before {A} (x y : A) (col : list A) : Prop :=
  ∃ l1 l2, col = l1 ++ x :: l2 ∧ (x ∉ l1) ∧ (y ∉ l1) ∧ x ≠ y.

(** Order of the fetched frame: by month, and by organization name within a
    month. *)
Definition month_org_le (r1 r2 : Row) : Prop :=
  String.le (month r1) (month r2) ∧
  (month r1 = month r2 → String.le (orgGroupName r1) (orgGroupName r2)).

(** The number of distinct organization groups (identifier, name, type) among
    the rows of a frame. *)
Definition distinct_orgs (df : DataFrame) : nat :=
  length (unique ((λ r, (orgGroupId r, orgGroupName r, orgType r)) <$> df)).

(** The same run with other selections in the two multi-select widgets. *)
Definition with_filters (months orgs : option (list string)) (env : Env) : Env :=
  {| secret_store := secret_store env; execute := execute env;
     credentials_ok := credentials_ok env; clock := clock env;
     slider_state := slider_state env; selectbox_state := selectbox_state env;
     month_filter := months; org_filter := orgs |}.

(** The same run at another time and against another state of the backend. *)
Definition later (now : Z) (answer : Client → Payload → Exn + option DataFrame)
    (env : Env) : Env :=
  {| secret_store := secret_store env; execute := answer;
     credentials_ok := credentials_ok env; clock := now;
     slider_state := slider_state env; selectbox_state := selectbox_state env;
     month_filter := month_filter env; org_filter := org_filter env |}.

(** Another routine within the contract of [Argsort]: it sorts the reversed
    frame, so rows with equal values come out in reverse order. *)
Definition reversing_desc {A} (by' : A → Z) (l : list A) : list A :=
  stable_desc by' (reverse l).

(** *** Sample data *)

Definition row_a : Row :=
  {| month := "2024-01"; orgGroupId := "1"; orgGroupName := "A";
     orgType := Some "PaAN"; unique_users := 3; session_count := 5;
     report_count := 10 |}.

Definition row_b : Row :=
  {| month := "2024-01"; orgGroupId := "2"; orgGroupName := "B";
     orgType := Some "PaAN"; unique_users := 4; session_count := 8;
     report_count := 30 |}.

(** Organization B in the next month, with as many reports as A has. *)
Definition row_b_tie : Row :=
  {| month := "2024-02"; orgGroupId := "2"; orgGroupName := "B";
     orgType := Some "PaAN"; unique_users := 2; session_count := 7;
     report_count := 10 |}.

(** Organization A with 2^62 reports in each of two months: each count fits
    [int64], their sum does not. *)
Definition row_a_big (m : string) : Row :=
  {| month := m; orgGroupId := "1"; orgGroupName := "A";
     orgType := Some "PaAN"; unique_users := 3; session_count := 5;
     report_count := 2 ^ 62 |}.

Definition sample_client : Client :=
  {| supabase_url := "https://kdin.example"; supabase_key := "key" |}.

(** A world with both secrets set, a backend that answers with [data], and
    the given selections in the two multi-select widgets. *)
Definition sample_env (data : option DataFrame)
    (months orgs : option (list string)) : Env :=
  {| secret_store := Some (<["SUPABASE_URL" := "https://kdin.example"]>
                             (<["SUPABASE_SECRET_KEY" := "key"]> ∅));
     execute := λ _ _, inr data;
     credentials_ok := λ _ _, true;
     clock := 1000;
     slider_state := None; selectbox_state := None;
     month_filter := months; org_filter := orgs |}.

(** A world whose secret store lacks the access key under both names. *)
Definition env_without_key : Env :=
  {| secret_store := Some (<["SUPABASE_URL" := "https://kdin.example"]> ∅);
     execute := λ _ _, inr (Some [row_a; row_b]);
     credentials_ok := λ _ _, true;
     clock := 1000;
     slider_state := None; selectbox_state := None;
     month_filter := None; org_filter := None |}.

(** Every frame in the data cache is in the order of the fetcher. *)
Definition cache_sorted (s : Session) : Prop :=
  ∀ key v stored,
    data_cache s !! key = Some (v, stored) → StronglySorted month_org_le v.

(** ** Vocabulary of the further properties *)

(** What lines 18-31 put on the page: the title block, the slider and the
    type selector, each widget showing its current value. *)
Definition header_elements (env : Env) : list Element :=
  [set_page_config "K-DIN 월별 리포트 대시보드";
   title "K-DIN 월별 리포트 대시보드";
   divider;
   slider "그래프: 상위 N개 조직(총 리포트 수 기준)" 5 50
     (default 25 (slider_state env)) 5;
   subheader "통계 필터";
   selectbox "조직 유형(og.type) 필터" (type_label <$> [Modu; PaAN; PaAN_ioe])
     (type_label (default Modu (selectbox_state env)))].

(** The session with more elements on its page. *)
Definition add_ui (new : list Element) (s : Session) : Session :=
  {| ui := ui s ++ new; resource_cache := resource_cache s;
     data_cache := data_cache s; rpc_log := rpc_log s |}.

(** The session in which the next run starts: a new page and a new call log,
    the caches of the process as the last run left them. *)
Definition next_run (s : Session) : Session :=
  start (resource_cache s) (data_cache s).

(** The message of line 100. *)
Definition msg_nothing_to_aggregate : string := "집계할 데이터가 없습니다.".

(** The sum of a column of the totals. *)
Definition totals_sum (col : Total → Z) (totals : list Total) : Z :=
  foldr (λ g a, col g + a) 0 totals.

(** The rows whose three key columns are all set. *)
Definition rows_with_key (df : DataFrame) : DataFrame :=
  filter (λ r, is_Some (group_of r)) df.

(** The rows of a frame with the given month and organization name. *)
Definition rows_of_month_org (m o : string) (df : DataFrame) : DataFrame :=
  filter (λ r, month r = m ∧ orgGroupName r = o) df.

(** * Properties *)

(** ** The stable sort *)

Section StableSortFacts.
Context {A : Type} (leb : A → A → bool).

Lemma insert_sorted_perm (x : A) (l : list A) : insert_sorted leb x l ≡ₚ x :: l.
Proof.
  induction l as [|y l IH]; simpl; [done|].
  destruct (leb x y); [done|].
  rewrite IH. apply Permutation_swap.
Qed.

Lemma stable_sort_perm (l : list A) : stable_sort leb l ≡ₚ l.
Proof.
  induction l as [|x l IH]; simpl; [done|].
  by rewrite insert_sorted_perm, IH.
Qed.

Hypothesis leb_total : ∀ x y, leb x y = true ∨ leb y x = true.
Hypothesis leb_trans : ∀ x y z, leb x y = true → leb y z = true → leb x z = true.

Lemma insert_sorted_sorted (x : A) (l : list A) :
  StronglySorted (λ a b, leb a b = true) l →
  StronglySorted (λ a b, leb a b = true) (insert_sorted leb x l).
Proof.
  induction 1 as [|y l Hl IH Hy]; simpl.
  - repeat constructor.
  - destruct (leb x y) eqn:Hxy.
    + constructor; [by constructor|].
      constructor; [done|].
      eapply Forall_impl; [exact Hy|]. intros z Hz. by eapply leb_trans.
    + constructor; [done|].
      rewrite insert_sorted_perm. constructor; [|done].
      destruct (leb_total x y); congruence.
Qed.

Lemma stable_sort_sorted (l : list A) :
  StronglySorted (λ a b, leb a b = true) (stable_sort leb l).
Proof.
  induction l as [|x l IH]; simpl; [constructor|].
  by apply insert_sorted_sorted.
Qed.

End StableSortFacts.

Lemma StronglySorted_weaken {A} (R1 R2 : A → A → Prop) (l : list A) :
  (∀ x y, R1 x y → R2 x y) → StronglySorted R1 l → StronglySorted R2 l.
Proof.
  intros HR. induction 1 as [|x l Hl IH Hx]; constructor; [done|].
  eapply Forall_impl; [exact Hx|]. auto.
Qed.

Lemma stable_desc_perm {A} (by' : A → Z) (l : list A) : stable_desc by' l ≡ₚ l.
Proof. apply stable_sort_perm. Qed.

Lemma stable_desc_sorted {A} (by' : A → Z) (l : list A) :
  StronglySorted (λ a b, by' b ≤ by' a) (stable_desc by' l).
Proof.
  eapply StronglySorted_weaken; cycle 1.
  - apply stable_sort_sorted.
    + intros x y. rewrite !bool_decide_eq_true. lia.
    + intros x y z. rewrite !bool_decide_eq_true. lia.
  - intros x y. simpl. by rewrite bool_decide_eq_true.
Qed.

(** A sorting routine that meets the contract of [Argsort]. *)
Definition stable_argsort : Argsort := {|
  sort_values_desc := @stable_desc;
  sort_values_desc_perm := @stable_desc_perm;
  sort_values_desc_sorted := @stable_desc_sorted;
|}.

(** ** Order of strings and of group keys *)

Lemma compare_refl (s : string) : String.compare s s = Eq.
Proof.
  induction s as [|a s IH]; simpl; [done|].
  unfold Ascii.compare. by rewrite N.compare_refl.
Qed.

Lemma compare_Eq_iff (s1 s2 : string) : String.compare s1 s2 = Eq ↔ s1 = s2.
Proof.
  split; [apply String.compare_eq_iff|]. intros ->. apply compare_refl.
Qed.

Lemma compare_Gt_Lt (s1 s2 : string) :
  String.compare s1 s2 = Gt ↔ String.compare s2 s1 = Lt.
Proof.
  rewrite (String.compare_antisym s2 s1).
  destruct (String.compare s1 s2); simpl; split; congruence.
Qed.

Lemma compare_Lt_le (s1 s2 : string) :
  String.compare s1 s2 = Lt ↔ String.le s1 s2 ∧ s1 ≠ s2.
Proof.
  unfold String.le, String.leb. rewrite <- compare_Eq_iff.
  destruct (String.compare s1 s2); simpl; split; try done; intros [? ?]; done.
Qed.

Lemma compare_Lt_trans (s1 s2 s3 : string) :
  String.compare s1 s2 = Lt → String.compare s2 s3 = Lt →
  String.compare s1 s3 = Lt.
Proof.
  rewrite !compare_Lt_le. intros [H12 Hne12] [H23 Hne23]. split.
  - by etrans.
  - intros ->. apply Hne12. by apply (anti_symm String.le).
Qed.

Lemma lex_Eq c1 c2 : lex c1 c2 = Eq ↔ c1 = Eq ∧ c2 = Eq.
Proof. destruct c1, c2; simpl; intuition congruence. Qed.

Lemma key_compare_Eq (k1 k2 : GroupKey) : key_compare k1 k2 = Eq ↔ k1 = k2.
Proof.
  destruct k1 as [[i1 n1] t1], k2 as [[i2 n2] t2]. unfold key_compare; simpl.
  rewrite !lex_Eq, !compare_Eq_iff. intuition congruence.
Qed.

Lemma key_compare_Gt_Lt (k1 k2 : GroupKey) :
  key_compare k1 k2 = Gt ↔ key_compare k2 k1 = Lt.
Proof.
  destruct k1 as [[i1 n1] t1], k2 as [[i2 n2] t2]. unfold key_compare; simpl.
  rewrite (String.compare_antisym i2 i1), (String.compare_antisym n2 n1),
    (String.compare_antisym t2 t1).
  destruct (String.compare i1 i2), (String.compare n1 n2),
    (String.compare t1 t2); simpl; split; congruence.
Qed.

Lemma key_compare_Lt_trans (k1 k2 k3 : GroupKey) :
  key_compare k1 k2 = Lt → key_compare k2 k3 = Lt → key_compare k1 k3 = Lt.
Proof.
  destruct k1 as [[i1 n1] t1], k2 as [[i2 n2] t2], k3 as [[i3 n3] t3].
  unfold key_compare; simpl.
  destruct (String.compare i1 i2) eqn:Hi12; simpl; [|  |done].
  - apply compare_Eq_iff in Hi12 as ->.
    destruct (String.compare i2 i3) eqn:Hi23; simpl; [| done | done].
    destruct (String.compare n1 n2) eqn:Hn12; simpl; [| |done].
    + apply compare_Eq_iff in Hn12 as ->.
      destruct (String.compare n2 n3) eqn:Hn23; simpl; [|done|done].
      apply compare_Lt_trans.
    + destruct (String.compare n2 n3) eqn:Hn23; simpl; [| |done].
      * apply compare_Eq_iff in Hn23 as ->. by rewrite Hn12.
      * by rewrite (compare_Lt_trans _ _ _ Hn12 Hn23).
  - destruct (String.compare i2 i3) eqn:Hi23; simpl; [| |done].
    + apply compare_Eq_iff in Hi23 as ->. by rewrite Hi12.
    + by rewrite (compare_Lt_trans _ _ _ Hi12 Hi23).
Qed.

(** ** Distinct values in first-seen order *)

Section UniqueFacts.
Context {A : Type} `{EqDecision A}.
Implicit Types (x y : A) (col : list A).

Lemma unique_snoc col x : unique (col ++ [x]) = unique_step (unique col) x.
Proof. unfold unique. by rewrite foldl_app. Qed.

Lemma elem_of_unique col x : x ∈ unique col ↔ x ∈ col.
Proof.
  induction col as [|y col IH] using rev_ind; [done|].
  rewrite unique_snoc, elem_of_app, list_elem_of_singleton. unfold unique_step.
  case_decide as Hy; [|rewrite elem_of_app, list_elem_of_singleton; by rewrite IH].
  rewrite <- IH. split; [by left|]. by intros [?| ->].
Qed.

Lemma NoDup_unique col : NoDup (unique col).
Proof.
  induction col as [|y col IH] using rev_ind; [constructor|].
  rewrite unique_snoc. unfold unique_step. case_decide as Hy; [done|].
  apply NoDup_app. split_and!; [done| |apply NoDup_singleton].
  intros z Hz ->%list_elem_of_singleton. done.
Qed.

Lemma unique_order col (i j : nat) x y :
  unique col !! i = Some x → unique col !! j = Some y → (i < j)%nat →
  first_seen_before x y col.
Proof.
  revert i j x y. induction col as [|z col IH] using rev_ind; [done|].
  intros i j x y. rewrite unique_snoc. unfold unique_step.
  assert (∀ a b, first_seen_before a b col → first_seen_before a b (col ++ [z]))
    as Hext.
  { intros a b (l1 & l2 & -> & ? & ? & ?). exists l1, (l2 ++ [z]).
    by rewrite <- app_assoc. }
  case_decide as Hz; [by eauto|].
  intros Hi Hj Hij.
  destruct (decide (j < length (unique col))%nat) as [Hlt|Hge].
  - rewrite lookup_app_l in Hi by lia. rewrite lookup_app_l in Hj by lia. eauto.
  - assert (i < length (unique col))%nat as Hi'.
    { apply lookup_lt_Some in Hj. rewrite length_app in Hj. simpl in Hj. lia. }
    rewrite lookup_app_l in Hi by done.
    rewrite lookup_app_r in Hj by lia.
    apply list_lookup_singleton_Some in Hj as [_ <-].
    assert (x ∈ unique col) as Hx by (by eapply list_elem_of_lookup_2).
    rewrite elem_of_unique in Hz.
    apply elem_of_unique, list_elem_of_split_l in Hx as (l1 & l2 & -> & Hx).
    exists l1, (l2 ++ [z]). rewrite <- app_assoc. split_and!; [done|done| |].
    + intros ?. apply Hz. apply elem_of_app. by left.
    + intros ->. apply Hz. apply elem_of_app. right. by left.
Qed.

End UniqueFacts.

(** ** The aggregation *)

Lemma key_compare_refl (k : GroupKey) : key_compare k k = Eq.
Proof. by apply key_compare_Eq. Qed.

Lemma key_compare_Lt_ne (k1 k2 : GroupKey) : key_compare k1 k2 = Lt → k1 ≠ k2.
Proof. intros HLt ->. by rewrite key_compare_refl in HLt. Qed.

(** *** Sums in the integers of arithmetic *)

Lemma elem_of_exact_accumulate k s r acc g :
  g ∈ exact_accumulate k s r acc → group_key g = k ∨ g ∈ acc.
Proof.
  induction acc as [|g0 acc IH]; simpl.
  - intros ->%list_elem_of_singleton. by left.
  - destruct (key_compare k (group_key g0)) eqn:Hc.
    + intros [->|?]%elem_of_cons; [by left|]. right. by right.
    + intros [->|?]%elem_of_cons; [by left|]. by right.
    + intros [->|?]%elem_of_cons; [right; by left|].
      destruct IH as [?|?]; [done|by left|]. right. by right.
Qed.

Lemma keys_sorted_exact_accumulate k s r acc :
  keys_sorted acc → keys_sorted (exact_accumulate k s r acc).
Proof.
  unfold keys_sorted. induction 1 as [|g0 acc Hacc IH Hg0]; simpl.
  - repeat constructor.
  - destruct (key_compare k (group_key g0)) eqn:Hc.
    + apply key_compare_Eq in Hc. constructor; [done|]. simpl.
      by rewrite Hc.
    + constructor; [by constructor|]. constructor; [done|].
      eapply Forall_impl; [exact Hg0|]. simpl. intros g ?.
      by eapply key_compare_Lt_trans.
    + constructor; [done|]. apply Forall_forall. intros g Hg.
      apply elem_of_exact_accumulate in Hg as [<-|Hg].
      * by apply key_compare_Gt_Lt.
      * by eapply Forall_forall in Hg0.
Qed.

Lemma find_group_None k acc :
  Forall (λ g, key_compare k (group_key g) = Lt) acc → find_group k acc = None.
Proof.
  induction 1 as [|g acc Hg _ IH]; simpl; [done|].
  apply key_compare_Lt_ne in Hg. by rewrite decide_False.
Qed.

Lemma find_group_exact_accumulate k s r acc k' :
  keys_sorted acc →
  find_group k' (exact_accumulate k s r acc) =
    if decide (k' = k) then Some (added k s r (find_group k acc))
    else find_group k' acc.
Proof.
  unfold keys_sorted. induction 1 as [|g0 acc Hacc IH Hg0]; simpl.
  - repeat case_decide; subst; simpl; congruence.
  - destruct (key_compare k (group_key g0)) eqn:Hc; simpl.
    + apply key_compare_Eq in Hc. subst k.
      rewrite (decide_True (P := group_key g0 = group_key g0)) by done.
      repeat case_decide; subst; simpl; congruence.
    + rewrite (decide_False (P := group_key g0 = k))
        by (intros <-; by rewrite key_compare_refl in Hc).
      rewrite (find_group_None k acc); cycle 1.
      { eapply Forall_impl; [exact Hg0|]. simpl. intros g ?.
        by eapply key_compare_Lt_trans. }
      repeat case_decide; subst; simpl; congruence.
    + assert (group_key g0 ≠ k) as Hne
        by (intros <-; by rewrite key_compare_refl in Hc).
      rewrite (decide_False (P := group_key g0 = k)) by done.
      rewrite IH. repeat case_decide; subst; simpl; congruence.
Qed.

Lemma find_group_elem_of k acc g : find_group k acc = Some g → g ∈ acc ∧ group_key g = k.
Proof.
  induction acc as [|g0 acc IH]; simpl; [done|].
  case_decide.
  - intros [= ->]. split; [by left|done].
  - intros [? ?]%IH. split; [by right|done].
Qed.

Lemma find_group_sorted acc g :
  keys_sorted acc → g ∈ acc → find_group (group_key g) acc = Some g.
Proof.
  unfold keys_sorted. induction 1 as [|g0 acc Hacc IH Hg0]; simpl.
  - by intros ?%elem_of_nil.
  - intros [->|Hg]%elem_of_cons; [by rewrite decide_True|].
    rewrite decide_False; [by apply IH|].
    eapply Forall_forall in Hg0; [|exact Hg].
    by apply key_compare_Lt_ne.
Qed.

Lemma exact_groupby_snoc df r :
  exact_groupby (df ++ [r]) = exact_step (exact_groupby df) r.
Proof. unfold exact_groupby. by rewrite foldl_app. Qed.

Lemma groupby_agg_snoc df r :
  groupby_agg (df ++ [r]) = groupby_step (groupby_agg df) r.
Proof. unfold groupby_agg. by rewrite foldl_app. Qed.

Lemma column_sum_snoc col df r : column_sum col (df ++ [r]) = column_sum col df + col r.
Proof. induction df as [|r0 df IH]; simpl; [lia|]. rewrite IH. lia. Qed.

Lemma keys_sorted_exact_groupby df : keys_sorted (exact_groupby df).
Proof.
  induction df as [|r df IH] using rev_ind; [constructor|].
  rewrite exact_groupby_snoc. unfold exact_step.
  destruct (group_of r); [|done]. by apply keys_sorted_exact_accumulate.
Qed.

Lemma find_group_exact_groupby k df :
  find_group k (exact_groupby df) =
    match rows_of_group k df with
    | [] => None
    | rows => Some {| group_key := k;
                      total_sessions := column_sum session_count rows;
                      total_reports := column_sum report_count rows |}
    end.
Proof.
  induction df as [|r df IH] using rev_ind; [done|].
  rewrite exact_groupby_snoc. unfold exact_step, rows_of_group in *.
  rewrite filter_app. simpl.
  destruct (group_of r) as [k0|] eqn:Hr.
  - rewrite find_group_exact_accumulate by apply keys_sorted_exact_groupby.
    rewrite filter_cons. case_decide as Hk.
    + simplify_eq. rewrite decide_True by done. rewrite IH.
      destruct (filter _ df) as [|r0 rows]; simpl; [f_equal; f_equal; lia|].
      rewrite !column_sum_snoc. f_equal. f_equal; lia.
    + rewrite decide_False by congruence. rewrite IH, filter_nil. by rewrite app_nil_r.
  - rewrite filter_cons, decide_False by congruence. rewrite filter_nil, app_nil_r. done.
Qed.

(** *** Sums in 64 bits *)

Lemma wrap64_int64 (z : Z) : int64 z → wrap64 z = z.
Proof. unfold int64, wrap64. intros Hz. rewrite Z.mod_small; lia. Qed.

Lemma int64_wrap64 (z : Z) : int64 (wrap64 z).
Proof.
  unfold int64, wrap64.
  pose proof (Z.mod_pos_bound (z + 2 ^ 63) (2 ^ 64)) as Hb. lia.
Qed.

Lemma wrap64_add (a b : Z) : wrap64 (wrap64 a + b) = wrap64 (a + b).
Proof.
  unfold wrap64. f_equal.
  replace ((a + 2 ^ 63) mod 2 ^ 64 - 2 ^ 63 + b + 2 ^ 63)
    with ((a + 2 ^ 63) mod 2 ^ 64 + b) by lia.
  rewrite Zplus_mod_idemp_l. f_equal. lia.
Qed.

(** The 64-bit accumulators are the exact ones, wrapped. *)
Lemma accumulate_wrap k s r acc :
  accumulate k s r (wrap_total <$> acc) =
    wrap_total <$> exact_accumulate k s r acc.
Proof.
  induction acc as [|g acc IH]; [done|].
  rewrite fmap_cons. simpl.
  destruct (key_compare k (group_key g)); rewrite ?fmap_cons; [| |by rewrite IH].
  - unfold wrap_total at 3. simpl. by rewrite !wrap64_add.
  - done.
Qed.

Lemma groupby_agg_wrap df : groupby_agg df = wrap_total <$> exact_groupby df.
Proof.
  induction df as [|r df IH] using rev_ind; [done|].
  rewrite groupby_agg_snoc, exact_groupby_snoc, IH.
  unfold groupby_step, exact_step. destruct (group_of r); [|done].
  apply accumulate_wrap.
Qed.

Lemma keys_sorted_wrap acc : keys_sorted acc → keys_sorted (wrap_total <$> acc).
Proof.
  unfold keys_sorted. induction 1 as [|g acc Hacc IH Hg]; [constructor|].
  rewrite fmap_cons. constructor; [done|].
  apply Forall_fmap. eapply Forall_impl; [exact Hg|]. done.
Qed.

Lemma find_group_wrap k acc :
  find_group k (wrap_total <$> acc) = wrap_total <$> find_group k acc.
Proof.
  induction acc as [|g acc IH]; [done|].
  rewrite fmap_cons. simpl. by case_decide.
Qed.

Lemma keys_sorted_groupby_agg df : keys_sorted (groupby_agg df).
Proof. rewrite groupby_agg_wrap. apply keys_sorted_wrap, keys_sorted_exact_groupby. Qed.

(** The aggregated frame as a finite map from keys to sums. *)
Lemma find_group_groupby_agg k df :
  find_group k (groupby_agg df) =
    match rows_of_group k df with
    | [] => None
    | rows => Some {| group_key := k;
                      total_sessions := wrap64 (column_sum session_count rows);
                      total_reports := wrap64 (column_sum report_count rows) |}
    end.
Proof.
  rewrite groupby_agg_wrap, find_group_wrap, find_group_exact_groupby.
  by destruct (rows_of_group k df).
Qed.

(** ** The row filter *)

Lemma elem_of_isin col values df r :
  r ∈ isin col values df ↔ r ∈ df ∧ col r ∈ values.
Proof. unfold isin. rewrite list_elem_of_filter. tauto. Qed.

Lemma isin_sublist col values df : isin col values df `sublist_of` df.
Proof. apply sublist_filter. Qed.

Lemma elem_of_filtered df sm so r :
  r ∈ filtered df sm so ↔
    r ∈ df ∧ (sm ≠ [] → month r ∈ sm) ∧ (so ≠ [] → orgGroupName r ∈ so).
Proof.
  unfold filtered.
  destruct sm as [|m sm], so as [|o so]; simpl;
    rewrite ?elem_of_isin; intuition congruence.
Qed.

Lemma filtered_sublist df sm so : filtered df sm so `sublist_of` df.
Proof.
  unfold filtered. destruct (truthy sm), (truthy so); try done;
    repeat (etrans; [apply isin_sublist|]); done.
Qed.

Lemma isin_all col values df :
  (∀ r, r ∈ df → col r ∈ values) → isin col values df = df.
Proof.
  intros Hall. unfold isin. induction df as [|r df IH]; [done|].
  rewrite filter_cons, decide_True by (apply Hall; by left).
  f_equal. apply IH. intros r' ?. apply Hall. by right.
Qed.

(** C1, counterexample: with the month selection empty and organization A
    selected, the filter returns A's row, whose month is not a member of the
    (empty) selected months. *)
Lemma filtered_ignores_empty_month_selection :
  filtered [row_a; row_b] [] ["A"] = [row_a] ∧ month row_a ∉ ([] : list string).
Proof. split; [done|]. apply not_elem_of_nil. Qed.

(** C1, as the code has it: the filter returns a sub-list of the fetched rows,
    and a fetched row is returned exactly when its month is among the selected
    months, unless the month selection is empty, and its organization name is
    among the selected organizations, unless that selection is empty (an empty
    selection does not restrict its dimension). *)
Theorem filtered_subset_of_selection (df : DataFrame) (sm so : list string) :
  filtered df sm so `sublist_of` df ∧
  ∀ r, r ∈ filtered df sm so ↔
         r ∈ df ∧ (sm ≠ [] → month r ∈ sm) ∧ (so ≠ [] → orgGroupName r ∈ so).
Proof. split; [apply filtered_sublist|]. intros r. apply elem_of_filtered. Qed.

Lemma filtered_subset_of_selection_witness :
  filtered [row_a; row_b] ["2024-01"] ["B"] `sublist_of` [row_a; row_b] ∧
  ∀ r, r ∈ filtered [row_a; row_b] ["2024-01"] ["B"] ↔
         r ∈ [row_a; row_b] ∧ (["2024-01"] ≠ [] → month r ∈ ["2024-01"]) ∧
         (["B"] ≠ [] → orgGroupName r ∈ ["B"]).
Proof. exact (filtered_subset_of_selection [row_a; row_b] ["2024-01"] ["B"]). Defined.

(** ** The filter options *)

Lemma String_leb_total (s1 s2 : string) :
  String.leb s1 s2 = true ∨ String.leb s2 s1 = true.
Proof. apply String.leb_total. Qed.

Lemma String_leb_trans (s1 s2 s3 : string) :
  String.leb s1 s2 = true → String.leb s2 s3 = true → String.leb s1 s3 = true.
Proof.
  intros H12%Is_true_true H23%Is_true_true. apply Is_true_true.
  by apply (transitivity (R := String.le) H12).
Qed.

Lemma sorted_perm (l : list string) : sorted l ≡ₚ l.
Proof. apply stable_sort_perm. Qed.

Lemma sorted_sorted (l : list string) : StronglySorted String.le (sorted l).
Proof.
  eapply StronglySorted_weaken; cycle 1.
  - apply stable_sort_sorted; [apply String_leb_total|apply String_leb_trans].
  - intros x y Hxy. by apply Is_true_true.
Qed.

Lemma elem_of_all_months df m : m ∈ all_months df ↔ ∃ r, r ∈ df ∧ month r = m.
Proof.
  unfold all_months. rewrite sorted_perm, elem_of_unique, list_elem_of_fmap.
  split; intros (r & ? & ?); eauto.
Qed.

Lemma elem_of_all_orgs df o : o ∈ all_orgs df ↔ ∃ r, r ∈ df ∧ orgGroupName r = o.
Proof.
  unfold all_orgs. rewrite elem_of_unique, list_elem_of_fmap.
  split; intros (r & ? & ?); eauto.
Qed.

Lemma filtered_empty_months df so :
  filtered df [] so = filtered df (all_months df) so.
Proof.
  unfold filtered. simpl. destruct (truthy (all_months df)); [|done].
  rewrite (isin_all month); [done|].
  intros r Hr. apply elem_of_all_months. eauto.
Qed.

Lemma filtered_empty_orgs df sm :
  filtered df sm [] = filtered df sm (all_orgs df).
Proof.
  unfold filtered. simpl. destruct (truthy (all_orgs df)); [|done].
  rewrite (isin_all orgGroupName); [done|].
  intros r Hr. apply elem_of_all_orgs. exists r. split; [|done].
  destruct (truthy sm); [|done]. by apply elem_of_isin in Hr as [? _].
Qed.

(** ** The page *)

(** Run the statements of the page down to the elements they add. *)
Ltac run_page :=
  unfold page;
  cbv beta iota zeta delta
    [bind emit ret raise st_multiselect st_dataframe stop empty ui
     resource_cache data_cache rpc_log];
  repeat match goal with
  | |- context [match ?f with [] => _ | _ :: _ => _ end] =>
      let Hf := fresh "Hf" in destruct f eqn:Hf
  | |- context [decide (Forall serialisable ?f)] =>
      let Hfit := fresh "Hfit" in
      destruct (decide (Forall serialisable f)) as [Hfit|Hfit]
  end;
  cbv beta iota zeta;
  rewrite <- ?app_assoc; simpl app.

Ltac elem_of_page :=
  rewrite ?elem_of_cons, ?elem_of_nil; intuition (try discriminate; try done).

(** C2, counterexample: after the user emptied the month selection, both
    fetched rows still pass the filter, and the page shows the table and not
    the "no rows match filter" warning. *)
Lemma deselecting_all_months_shows_all_rows :
  let env := sample_env (Some [row_a; row_b]) (Some []) None in
  let run := @app stable_argsort env (start None ∅) in
  filtered [row_a; row_b] [] (all_orgs [row_a; row_b]) = [row_a; row_b] ∧
  dataframe display_cols [row_a; row_b] ∈ ui run.2 ∧
  warning msg_no_filter_match ∉ ui run.2.
Proof.
  split_and!.
  - by vm_compute.
  - apply (bool_decide_eq_true_1 _). by vm_compute.
  - apply (bool_decide_eq_false_1 _). by vm_compute.
Qed.

(** C2, as the code has it: an emptied month (or organization) selection
    filters exactly as if every month (organization) were selected; the
    "no rows match filter" warning is on the page exactly when the fetched
    frame is not empty and the filtered frame is, the "no results" message
    exactly when the fetched frame is empty, and the two messages differ. *)
Theorem empty_selection_is_no_restriction `{Argsort} (env : Env) (top_n : Z)
    (type_option : TypeOption) (df : DataFrame) (s : Session) :
  let selected_months := default (all_months df) (month_filter env) in
  let selected_orgs := default (all_orgs df) (org_filter env) in
  (∀ so, filtered df [] so = filtered df (all_months df) so) ∧
  (∀ sm, filtered df sm [] = filtered df sm (all_orgs df)) ∧
  msg_no_filter_match ≠ msg_no_results ∧
  ∃ new, ui (page env top_n type_option df s).2 = ui s ++ new ∧
    (warning msg_no_filter_match ∈ new ↔
       df ≠ [] ∧ filtered df selected_months selected_orgs = []) ∧
    (info msg_no_results ∈ new ↔ df = []).
Proof.
  intros sm so. split_and!.
  - intros ?. apply filtered_empty_months.
  - intros ?. apply filtered_empty_orgs.
  - done.
  - subst sm so. destruct s as [u rc dc lg].
    run_page; simpl; eexists; (split; [done|]); elem_of_page.
Qed.

Lemma empty_selection_is_no_restriction_witness :
  ∃ new,
    ui (@page stable_argsort (sample_env None (Some ["2024-01"]) (Some ["B"]))
          25 Modu [row_a; row_b_tie] (start None ∅)).2 = [] ++ new ∧
    warning msg_no_filter_match ∈ new.
Proof.
  destruct (@empty_selection_is_no_restriction stable_argsort
              (sample_env None (Some ["2024-01"]) (Some ["B"])) 25 Modu
              [row_a; row_b_tie] (start None ∅))
    as (_ & _ & _ & new & Hui & Hwarn & _).
  exists new. split; [exact Hui|]. apply Hwarn. split; [done|]. by vm_compute.
Defined.

(** C8: the month options are the distinct months of the fetched rows in
    ascending order; the organization options are the distinct organization
    names in the order of their first appearance; and on a non-empty frame
    both multi-select widgets, while untouched, have every option selected. *)
Theorem filter_options_from_rows `{Argsort} (df : DataFrame) :
  (StronglySorted String.le (all_months df) ∧ NoDup (all_months df) ∧
   ∀ m, m ∈ all_months df ↔ ∃ r, r ∈ df ∧ month r = m) ∧
  (NoDup (all_orgs df) ∧
   (∀ o, o ∈ all_orgs df ↔ ∃ r, r ∈ df ∧ orgGroupName r = o) ∧
   ∀ (i j : nat) x y,
     all_orgs df !! i = Some x → all_orgs df !! j = Some y → (i < j)%nat →
     first_seen_before x y (orgGroupName <$> df)) ∧
  ∀ env top_n type_option s,
    df ≠ [] → month_filter env = None → org_filter env = None →
    ∃ new, ui (page env top_n type_option df s).2 = ui s ++ new ∧
      multiselect "월을 선택하세요" (all_months df) (all_months df)
        (all_months df) ∈ new ∧
      multiselect "조직을 선택하세요" (all_orgs df) (all_orgs df)
        (all_orgs df) ∈ new.
Proof.
  split_and!.
  - apply sorted_sorted.
  - unfold all_months. rewrite sorted_perm. apply NoDup_unique.
  - apply elem_of_all_months.
  - apply NoDup_unique.
  - apply elem_of_all_orgs.
  - intros i j x y. apply unique_order.
  - intros env top_n ty s Hdf Hm Ho. destruct s as [u rc dc lg].
    run_page; rewrite ?Hm, ?Ho; simpl; try done;
      eexists; (split; [done|]); elem_of_page.
Qed.

Lemma filter_options_from_rows_witness :
  all_months [row_b_tie; row_b; row_a] = ["2024-01"; "2024-02"] ∧
  all_orgs [row_b_tie; row_b; row_a] = ["B"; "A"] ∧
  first_seen_before "B" "A" (orgGroupName <$> [row_b_tie; row_b; row_a]) ∧
  ∃ new,
    ui (@page stable_argsort (sample_env None None None) 25 Modu
          [row_b_tie; row_b; row_a] (start None ∅)).2 = [] ++ new ∧
    multiselect "월을 선택하세요" ["2024-01"; "2024-02"] ["2024-01"; "2024-02"]
      ["2024-01"; "2024-02"] ∈ new.
Proof.
  destruct (@filter_options_from_rows stable_argsort [row_b_tie; row_b; row_a])
    as (_ & (_ & _ & Horder) & Hdefault).
  split_and!; [done|done| |].
  - apply (Horder 0%nat 1%nat); [by vm_compute|by vm_compute|lia].
  - destruct (Hdefault (sample_env None None None) 25 Modu (start None ∅))
      as (new & Hui & Hm & _); [done..|].
    exists new. by split.
Defined.

(** ** The fetcher *)

Lemma month_org_leb_le (r1 r2 : Row) :
  month_org_leb r1 r2 = true ↔ month_org_le r1 r2.
Proof.
  unfold month_org_leb, month_org_le.
  destruct (String.compare (month r1) (month r2)) eqn:Hc.
  - apply compare_Eq_iff in Hc. rewrite Hc. split.
    + intros Hn. split; [done|]. intros _. by apply Is_true_true.
    + intros [_ Hn]. by apply Is_true_true, Hn.
  - apply compare_Lt_le in Hc as [Hle Hne]. split; [|done].
    intros _. split; [done|]. by intros ?.
  - split; [done|]. intros [Hle _]. exfalso.
    apply compare_Gt_Lt, compare_Lt_le in Hc as [Hle' Hne].
    apply Hne. by apply (anti_symm String.le).
Qed.

Lemma month_org_le_total (r1 r2 : Row) : month_org_le r1 r2 ∨ month_org_le r2 r1.
Proof.
  unfold month_org_le.
  destruct (decide (month r1 = month r2)) as [Heq|Hne].
  - rewrite Heq.
    destruct (total String.le (orgGroupName r1) (orgGroupName r2)); [left|right];
      done.
  - destruct (total String.le (month r1) (month r2)); [left|right];
      (split; [done|congruence]).
Qed.

Lemma month_org_le_trans (r1 r2 r3 : Row) :
  month_org_le r1 r2 → month_org_le r2 r3 → month_org_le r1 r3.
Proof.
  unfold month_org_le. intros [Hm12 Hn12] [Hm23 Hn23]. split; [by etrans|].
  intros Heq. rewrite Heq in Hm12.
  assert (month r2 = month r3) as H23 by (by apply (anti_symm String.le)).
  etrans; [apply Hn12; congruence|by apply Hn23].
Qed.

Lemma sort_values_month_org_sorted (df : DataFrame) :
  StronglySorted month_org_le (sort_values_month_org df).
Proof.
  eapply StronglySorted_weaken; cycle 1.
  - apply stable_sort_sorted.
    + intros r1 r2. rewrite !month_org_leb_le. apply month_org_le_total.
    + intros r1 r2 r3. rewrite !month_org_leb_le. apply month_org_le_trans.
  - intros r1 r2. apply month_org_leb_le.
Qed.

Lemma frame_of_sorted (data : option DataFrame) :
  StronglySorted month_org_le (frame_of data).
Proof.
  unfold frame_of. destruct (default [] data) as [|r df]; simpl; [constructor|].
  apply (sort_values_month_org_sorted (r :: df)).
Qed.

Lemma frame_of_perm (data : option DataFrame) : frame_of data ≡ₚ default [] data.
Proof.
  unfold frame_of. destruct (default [] data) as [|r df]; simpl; [done|].
  apply (stable_sort_perm month_org_leb (r :: df)).
Qed.

(** The two ways a call of the fetcher goes. *)
Lemma fetch_data_hit env supabase type_option months orgs s v :
  cache_lookup ttl (clock env) (type_option, months, orgs) s = Some v →
  fetch_data env supabase type_option months orgs s = (inr v, s).
Proof. intros Hhit. unfold fetch_data, cache_data. by rewrite Hhit. Qed.

Lemma fetch_data_miss env supabase type_option months orgs s :
  cache_lookup ttl (clock env) (type_option, months, orgs) s = None →
  fetch_data env supabase type_option months orgs s =
    match execute env supabase (payload type_option months orgs) with
    | inl e =>
        (inl (Raised e),
         {| ui := ui s; resource_cache := resource_cache s;
            data_cache := data_cache s;
            rpc_log := rpc_log s ++ [payload type_option months orgs] |})
    | inr data =>
        (inr (frame_of data),
         {| ui := ui s; resource_cache := resource_cache s;
            data_cache := <[(type_option, months, orgs) :=
                              (frame_of data, clock env)]> (data_cache s);
            rpc_log := rpc_log s ++ [payload type_option months orgs] |})
    end.
Proof.
  intros Hmiss. unfold fetch_data, cache_data. rewrite Hmiss.
  unfold bind, rpc, ret. by destruct (execute env supabase _).
Qed.

(** Frames handed out by the fetcher are sorted also when they come from the
    cache: the cache only ever holds frames the fetcher built. *)
Lemma fetch_data_cache_sorted env supabase type_option months orgs s :
  cache_sorted s →
  cache_sorted (fetch_data env supabase type_option months orgs s).2 ∧
  ∀ df, (fetch_data env supabase type_option months orgs s).1 = inr df →
        StronglySorted month_org_le df.
Proof.
  intros Hs.
  destruct (cache_lookup ttl (clock env) (type_option, months, orgs) s)
    as [v|] eqn:Hc.
  - rewrite (fetch_data_hit _ _ _ _ _ _ v) by done. split; [done|].
    intros df [= <-]. unfold cache_lookup in Hc.
    destruct (data_cache s !! _) as [[v' stored]|] eqn:Hl; [|done].
    case_bool_decide; [|done]. injection Hc as ->. by eapply Hs.
  - rewrite fetch_data_miss by done.
    destruct (execute env supabase _) as [e|data]; simpl; [done|].
    split; [|intros df [= <-]; apply frame_of_sorted].
    intros key v stored. simpl.
    destruct (decide ((type_option, months, orgs) = key)) as [<-|Hne].
    + rewrite lookup_insert_eq. intros [= <- _]. apply frame_of_sorted.
    + rewrite lookup_insert_ne by done. apply Hs.
Qed.

(** C6: when a call of the fetcher reaches the backend and the backend
    answers with [data], the fetcher returns the rows of [data], all of them,
    sorted by month and then by organization name, both ascending; it returns
    the empty frame when the answer has no rows or is a null payload. *)
Theorem fetch_data_sorted_or_empty (env : Env) (supabase : Client)
    (type_option : TypeOption) (months orgs : option (list string))
    (s : Session) (data : option DataFrame) :
  cache_lookup ttl (clock env) (type_option, months, orgs) s = None →
  execute env supabase (payload type_option months orgs) = inr data →
  ∃ df s',
    fetch_data env supabase type_option months orgs s = (inr df, s') ∧
    StronglySorted month_org_le df ∧
    df ≡ₚ default [] data ∧
    (data = None ∨ data = Some [] → df = []).
Proof.
  intros Hmiss Hdata. rewrite fetch_data_miss, Hdata by done.
  eexists _, _. split_and!; [done|apply frame_of_sorted|apply frame_of_perm|].
  by intros [-> | ->].
Qed.

Lemma fetch_data_sorted_or_empty_witness :
  ∃ df s',
    fetch_data (sample_env (Some [row_b_tie; row_b; row_a]) None None)
      sample_client Modu None None (start None ∅) = (inr df, s') ∧
    StronglySorted month_org_le df ∧
    df ≡ₚ default [] (Some [row_b_tie; row_b; row_a]) ∧
    (Some [row_b_tie; row_b; row_a] = None ∨
     Some [row_b_tie; row_b; row_a] = Some [] → df = []).
Proof.
  apply (fetch_data_sorted_or_empty
           (sample_env (Some [row_b_tie; row_b; row_a]) None None)
           sample_client Modu None None (start None ∅)); reflexivity.
Defined.

Lemma cache_lookup_insert ttl' now now' key v c u rc lg :
  cache_lookup ttl' now' key
    {| ui := u; resource_cache := rc; data_cache := <[key := (v, now)]> c;
       rpc_log := lg |} =
  if bool_decide (now' < now + ttl') then Some v else None.
Proof. unfold cache_lookup. simpl. by rewrite lookup_insert_eq. Qed.

(** C7: after a fetch that went to the backend at time [clock env], a fetch
    with the same (type, months, orgs) at a time [now'] less than 5 minutes
    later returns the same frame and leaves the session, call log included,
    as it was, whatever the backend would answer by then; from 5 minutes on
    the backend is called again and its new answer is returned. *)
Theorem fetch_data_memoised (env : Env) (supabase supabase' : Client)
    (type_option : TypeOption) (months orgs : option (list string))
    (s s1 : Session) (v : DataFrame) (now' : Z)
    (answer' : Client → Payload → Exn + option DataFrame) :
  cache_lookup ttl (clock env) (type_option, months, orgs) s = None →
  fetch_data env supabase type_option months orgs s = (inr v, s1) →
  clock env ≤ now' →
  let again := fetch_data (later now' answer' env) supabase' type_option
                 months orgs s1 in
  rpc_log s1 = rpc_log s ++ [payload type_option months orgs] ∧
  (now' < clock env + 5 * 60 → again = (inr v, s1)) ∧
  (clock env + 5 * 60 ≤ now' →
     rpc_log again.2 = rpc_log s1 ++ [payload type_option months orgs] ∧
     ∀ data, answer' supabase' (payload type_option months orgs) = inr data →
             again.1 = inr (frame_of data)).
Proof.
  intros Hmiss Hfirst Hnow again. subst again.
  rewrite fetch_data_miss in Hfirst by done.
  destruct (execute env supabase _) as [e|data]; [done|].
  injection Hfirst as <- <-. split_and!; [done| |].
  - intros Hin. apply fetch_data_hit. rewrite cache_lookup_insert.
    rewrite bool_decide_eq_true_2; [done|]. unfold ttl. simpl. lia.
  - intros Hout. rewrite fetch_data_miss; cycle 1.
    { rewrite cache_lookup_insert. rewrite bool_decide_eq_false_2; [done|].
      unfold ttl. simpl. lia. }
    simpl. destruct (answer' supabase' _) as [e|data']; simpl; [done|].
    split; [done|]. by intros ? [= ->].
Qed.

Lemma fetch_data_memoised_witness :
  let env := sample_env (Some [row_a]) None None in
  let s1 := (fetch_data env sample_client Modu None None (start None ∅)).2 in
  fetch_data (later 1299 (λ _ _, inr (Some [row_b])) env) sample_client Modu
    None None s1 = (inr [row_a], s1) ∧
  rpc_log (fetch_data (later 1300 (λ _ _, inr (Some [row_b])) env)
             sample_client Modu None None s1).2 =
    rpc_log s1 ++ [payload Modu None None].
Proof.
  intros env s1. split.
  - apply (fetch_data_memoised env sample_client sample_client Modu None None
             (start None ∅) s1 [row_a] 1299 (λ _ _, inr (Some [row_b])));
      [reflexivity|reflexivity|simpl; lia|simpl; lia].
  - apply (fetch_data_memoised env sample_client sample_client Modu None None
             (start None ∅) s1 [row_a] 1300 (λ _ _, inr (Some [row_b])));
      [reflexivity|reflexivity|simpl; lia|simpl; lia].
Defined.

(** ** The run *)

Lemma init_supabase_missing (env : Env) (s : Session) :
  resource_cache s = None →
  secrets env !! "SUPABASE_URL" = None ∨
  (secrets env !! "SUPABASE_SECRET_KEY" = None ∧
   secrets env !! "SUPABASE_PUB_KEY" = None) →
  ∃ e, init_supabase env s = (inl (Raised e), s).
Proof.
  intros Hrc Hmissing. unfold init_supabase, cache_resource. rewrite Hrc.
  unfold bind, secrets_getitem. unfold secrets in *.
  destruct (secret_store env) as [store|]; simpl in *; [|eauto].
  destruct (store !! "SUPABASE_URL") as [url|] eqn:Hurl.
  - destruct Hmissing as [?|[-> ->]]; [done|]. simpl.
    unfold create_client. destruct (decide (url = "")); eauto.
  - eauto.
Qed.

(** The client is built without touching the page, the data cache or the
    backend. *)
Lemma init_supabase_keeps (env : Env) (s : Session) :
  let s' := (init_supabase env s).2 in
  ui s' = ui s ∧ data_cache s' = data_cache s ∧ rpc_log s' = rpc_log s.
Proof.
  unfold init_supabase, cache_resource.
  destruct (resource_cache s); [done|].
  unfold bind, secrets_getitem, create_client, raise, ret.
  destruct (secret_store env) as [store|]; [|done].
  destruct (store !! "SUPABASE_URL"); [|done].
  destruct (decide _); [done|].
  destruct (py_or _ _); [|done].
  destruct (decide _); [done|]. by destruct (credentials_ok _ _ _).
Qed.

Lemma page_keeps `{Argsort} env top_n type_option df s :
  let s' := (page env top_n type_option df s).2 in
  resource_cache s' = resource_cache s ∧ data_cache s' = data_cache s ∧
  rpc_log s' = rpc_log s.
Proof. destruct s as [u rc dc lg]. run_page; done. Qed.

Lemma fetch_data_log env supabase type_option months orgs s :
  let s' := (fetch_data env supabase type_option months orgs s).2 in
  rpc_log s' = rpc_log s ∨
  rpc_log s' = rpc_log s ++ [payload type_option months orgs].
Proof.
  destruct (cache_lookup ttl (clock env) (type_option, months, orgs) s)
    as [v|] eqn:Hc.
  - rewrite (fetch_data_hit _ _ _ _ _ _ v) by done. by left.
  - rewrite fetch_data_miss by done. right.
    by destruct (execute env supabase _).
Qed.

(** A run is the fetch stage followed by the page. *)
Lemma app_stages `{Argsort} (env : Env) (s : Session) :
  app env s =
    match fetch_stage env s with
    | (inl h, s') => (inl h, s')
    | (inr (top_n, type_option, df), s') => page env top_n type_option df s'
    end.
Proof.
  unfold app, fetch_stage.
  cbv beta iota zeta delta [bind emit ret st_slider st_selectbox].
  destruct (init_supabase env s) as [[h|supabase] s1]; [done|].
  by destruct (fetch_data env supabase _ None None _) as [[h|df] s2].
Qed.

(** The log after the fetch stage: the calls before it, then at most the one
    call of line 53. *)
Lemma fetch_stage_rpc_log (env : Env) (s : Session) :
  ∃ new, rpc_log (fetch_stage env s).2 = rpc_log s ++ new ∧
         (new = [] ∨
          new = [payload (default Modu (selectbox_state env)) None None]).
Proof.
  unfold fetch_stage.
  cbv beta iota zeta delta [bind emit ret st_slider st_selectbox].
  pose proof (init_supabase_keeps env s) as (_ & _ & Hlog).
  destruct (init_supabase env s) as [[h|supabase] s1]; simpl in Hlog.
  { exists []. rewrite app_nil_r. split; [done|by left]. }
  rewrite <- Hlog.
  match goal with
  | |- context [fetch_data env supabase ?ty None None ?s0] =>
      pose proof (fetch_data_log env supabase ty None None s0) as Hfetch;
      destruct (fetch_data env supabase ty None None s0) as [[h|df] s2]
  end; simpl in Hfetch; simpl;
    (destruct Hfetch as [->| ->];
     [exists []; rewrite app_nil_r; split; [done|by left]
     |eexists; split; [done|by right]]).
Qed.

Lemma app_rpc_log `{Argsort} (env : Env) (s : Session) :
  rpc_log (app env s).2 = rpc_log (fetch_stage env s).2 ∧
  data_cache (app env s).2 = data_cache (fetch_stage env s).2.
Proof.
  rewrite app_stages.
  destruct (fetch_stage env s) as [[h|[[top_n ty] df]] s']; [done|].
  pose proof (page_keeps env top_n ty df s') as (_ & -> & ->). done.
Qed.

(** C9: at start-up (no client built yet), if the secret store lacks the
    backend URL, or lacks the access key under both of its names, the run
    ends with an exception and nothing has been put on the page. *)
Theorem missing_secret_aborts_before_ui `{Argsort} (env : Env)
    (cache : gmap CacheKey (DataFrame * Z)) :
  secrets env !! "SUPABASE_URL" = None ∨
  (secrets env !! "SUPABASE_SECRET_KEY" = None ∧
   secrets env !! "SUPABASE_PUB_KEY" = None) →
  ∃ e, app env (start None cache) = (inl (Raised e), start None cache) ∧
       ui (app env (start None cache)).2 = [].
Proof.
  intros Hmissing.
  destruct (init_supabase_missing env (start None cache)) as [e He]; [done..|].
  exists e.
  assert (app env (start None cache) = (inl (Raised e), start None cache))
    as -> by (unfold app; unfold bind at 1; by rewrite He).
  done.
Qed.

Lemma missing_secret_aborts_before_ui_witness :
  ∃ e, @app stable_argsort env_without_key (start None ∅) =
         (inl (Raised e), start None ∅) ∧
       ui (@app stable_argsort env_without_key (start None ∅)).2 = [].
Proof.
  apply (@missing_secret_aborts_before_ui stable_argsort env_without_key ∅).
  right. split; reflexivity.
Defined.

(** C10: every call a run makes to the backend carries [p_months = None]
    and [p_orgs = None], and neither the calls nor the cached frames depend
    on the selections in the two multi-select widgets: months and
    organizations are filtered on the client only. *)
Theorem fetch_ignores_selections `{Argsort} (env : Env) (s : Session) :
  (∃ new, rpc_log (app env s).2 = rpc_log s ++ new ∧
          Forall (λ p, p_months p = None ∧ p_orgs p = None) new) ∧
  ∀ months orgs,
    rpc_log (app (with_filters months orgs env) s).2 = rpc_log (app env s).2 ∧
    data_cache (app (with_filters months orgs env) s).2 =
      data_cache (app env s).2.
Proof.
  split.
  - destruct (app_rpc_log env s) as [-> _].
    destruct (fetch_stage_rpc_log env s) as (new & -> & [-> | ->]).
    + exists []. by split.
    + eexists. split; [done|]. by repeat constructor.
  - intros months orgs.
    destruct (app_rpc_log (with_filters months orgs env) s) as [-> ->].
    destruct (app_rpc_log env s) as [-> ->]. done.
Qed.

Lemma fetch_ignores_selections_witness :
  let env := sample_env (Some [row_a; row_b]) (Some ["2024-01"]) (Some ["B"]) in
  ∃ new,
    rpc_log (@app stable_argsort env (start None ∅)).2 = [] ++ new ∧
    Forall (λ p, p_months p = None ∧ p_orgs p = None) new ∧
    rpc_log (@app stable_argsort env (start None ∅)).2 =
      [{| p_type := None; p_months := None; p_orgs := None |}].
Proof.
  intros env.
  destruct (@fetch_ignores_selections stable_argsort env (start None ∅))
    as [(new & Hlog & Hnone) _].
  exists new. split_and!; [exact Hlog|exact Hnone|by vm_compute].
Defined.

(** ** Totals and the chart selection *)

Lemma reversing_desc_perm {A} (by' : A → Z) (l : list A) :
  reversing_desc by' l ≡ₚ l.
Proof. unfold reversing_desc. by rewrite stable_desc_perm, reverse_Permutation. Qed.

Lemma reversing_desc_sorted {A} (by' : A → Z) (l : list A) :
  StronglySorted (λ a b, by' b ≤ by' a) (reversing_desc by' l).
Proof. apply stable_desc_sorted. Qed.

Definition reversing_argsort : Argsort := {|
  sort_values_desc := @reversing_desc;
  sort_values_desc_perm := @reversing_desc_perm;
  sort_values_desc_sorted := @reversing_desc_sorted;
|}.

Lemma NoDup_fmap_eq {A B} (f : A → B) (l : list A) (x y : A) :
  NoDup (f <$> l) → x ∈ l → y ∈ l → f x = f y → x = y.
Proof.
  induction l as [|z l IH]; simpl; [by intros _ ?%elem_of_nil|].
  intros [Hz Hl]%NoDup_cons [->|Hx]%elem_of_cons [->|Hy]%elem_of_cons Hf;
    [done|..|by apply IH].
  - exfalso. apply Hz. rewrite Hf. by apply list_elem_of_fmap_2.
  - exfalso. apply Hz. rewrite <- Hf. by apply list_elem_of_fmap_2.
Qed.

(** Without ties a column has one descending arrangement. *)
Lemma descending_unique {A} (by' : A → Z) (l1 l2 : list A) :
  l1 ≡ₚ l2 → NoDup (by' <$> l1) →
  StronglySorted (λ a b, by' b ≤ by' a) l1 →
  StronglySorted (λ a b, by' b ≤ by' a) l2 →
  l1 = l2.
Proof.
  intros Hperm Hnodup Hs1 Hs2.
  eapply StronglySorted_unique_strong; [|exact Hs1|exact Hs2|exact Hperm].
  intros x1 x2 Hx1 Hx2 H12 H21. simpl in *.
  eapply (NoDup_fmap_eq by' l1); [done|done|by rewrite Hperm|lia].
Qed.

Lemma elem_of_totals `{Argsort} (filtered : DataFrame) (g : Total) :
  g ∈ totals filtered ↔ g ∈ groupby_agg filtered.
Proof. unfold totals. by rewrite sort_values_desc_perm. Qed.

Lemma elem_of_groupby_agg (df : DataFrame) (g : Total) :
  g ∈ groupby_agg df →
  rows_of_group (group_key g) df ≠ [] ∧
  total_reports g =
    wrap64 (column_sum report_count (rows_of_group (group_key g) df)) ∧
  total_sessions g =
    wrap64 (column_sum session_count (rows_of_group (group_key g) df)).
Proof.
  intros Hg.
  apply (find_group_sorted _ _ (keys_sorted_groupby_agg df)) in Hg.
  rewrite find_group_groupby_agg in Hg.
  destruct (rows_of_group (group_key g) df) as [|r rows]; [done|].
  injection Hg as <-. done.
Qed.

Lemma elem_of_groupby_agg_keys (df : DataFrame) (k : GroupKey) :
  k ∈ group_key <$> groupby_agg df ↔ ∃ r, r ∈ df ∧ group_of r = Some k.
Proof.
  split.
  - intros (g & -> & Hg)%list_elem_of_fmap.
    apply elem_of_groupby_agg in Hg as [Hrows _].
    destruct (rows_of_group (group_key g) df) as [|r rows] eqn:Hr; [done|].
    assert (r ∈ rows_of_group (group_key g) df) as Hin by (rewrite Hr; by left).
    apply list_elem_of_filter in Hin as [? ?]. eauto.
  - intros (r & Hr & Hk).
    pose proof (find_group_groupby_agg k df) as Hfind.
    destruct (rows_of_group k df) as [|r0 rows] eqn:Hrows.
    + exfalso. assert (r ∈ rows_of_group k df) as Hin
        by (by apply list_elem_of_filter).
      rewrite Hrows in Hin. by apply elem_of_nil in Hin.
    + apply find_group_elem_of in Hfind as [Hin <-].
      by apply list_elem_of_fmap_2.
Qed.

Lemma keys_sorted_NoDup (acc : list Total) :
  keys_sorted acc → NoDup (group_key <$> acc).
Proof.
  unfold keys_sorted. induction 1 as [|g acc Hacc IH Hg]; simpl; [constructor|].
  constructor; [|done].
  intros (g' & Hk & Hg')%list_elem_of_fmap.
  eapply Forall_forall in Hg; [|exact Hg'].
  by apply key_compare_Lt_ne in Hg.
Qed.

Lemma groupby_agg_length (df : DataFrame) :
  (length (groupby_agg df) ≤ distinct_orgs df)%nat.
Proof.
  unfold distinct_orgs.
  set (j := λ k : GroupKey, (k.1.1, k.1.2, Some k.2)).
  rewrite <- (length_fmap group_key), <- (length_fmap j).
  apply submseteq_length, NoDup_submseteq.
  - apply NoDup_fmap_2.
    + intros [[i1 n1] t1] [[i2 n2] t2]. unfold j. simpl. congruence.
    + apply keys_sorted_NoDup, keys_sorted_groupby_agg.
  - intros x (k & -> & Hk)%list_elem_of_fmap.
    apply elem_of_groupby_agg_keys in Hk as (r & Hr & Hk).
    apply elem_of_unique, list_elem_of_fmap. exists r. split; [|done].
    unfold group_of in Hk. destruct (orgType r); [|done].
    injection Hk as <-. done.
Qed.

(** A total is the sum over the rows of its group whenever that sum is in
    the range of [int64]. *)
Lemma elem_of_groupby_agg_fit (df : DataFrame) (g : Total) :
  g ∈ groupby_agg df →
  (int64 (column_sum report_count (rows_of_group (group_key g) df)) →
   total_reports g = column_sum report_count (rows_of_group (group_key g) df)) ∧
  (int64 (column_sum session_count (rows_of_group (group_key g) df)) →
   total_sessions g =
     column_sum session_count (rows_of_group (group_key g) df)).
Proof.
  intros (_ & -> & ->)%elem_of_groupby_agg. split; apply wrap64_int64.
Qed.

(** Without overflow the frame of the sums is the exact one. *)
Lemma groupby_agg_exact (df : DataFrame) :
  group_sums_fit df → groupby_agg df = exact_groupby df.
Proof.
  intros Hfit. rewrite groupby_agg_wrap.
  transitivity (id <$> exact_groupby df); [|apply list_fmap_id].
  apply list_fmap_ext. intros i g Hg%list_elem_of_lookup_2.
  apply (find_group_sorted _ _ (keys_sorted_exact_groupby df)) in Hg.
  rewrite find_group_exact_groupby in Hg.
  destruct (Hfit (group_key g)) as [Hs Hr].
  destruct (rows_of_group (group_key g) df) as [|r rows]; [done|].
  injection Hg as <-. unfold wrap_total. simpl.
  by rewrite !wrap64_int64.
Qed.

(** C5, counterexample: organization A has 2^62 reports in each of two
    months.  Both counts fit the 64-bit column, their sum 2^63 does not: the
    total of the group is -2^63, not the sum of its rows. *)
Lemma total_reports_wraps_around :
  let rows := [row_a_big "2024-01"; row_a_big "2024-02"] in
  let g := {| group_key := ("1", "A", "PaAN"); total_sessions := 10;
              total_reports := - 2 ^ 63 |} in
  Forall counts_int64 rows ∧
  @totals stable_argsort rows = [g] ∧
  column_sum report_count (rows_of_group (group_key g) rows) = 2 ^ 63 ∧
  total_reports g ≠ column_sum report_count (rows_of_group (group_key g) rows).
Proof.
  split_and!.
  - repeat constructor; by vm_compute.
  - by vm_compute.
  - by vm_compute.
  - by vm_compute.
Qed.

(** C5, as the code has it: for every group in the totals, [total_reports]
    is the sum of [report_count] over the filtered rows of that group
    whenever that sum is within the range of 64-bit signed integers, and
    [total_sessions] is the sum of [session_count] over the same rows
    whenever that sum is. *)
Theorem totals_are_group_sums `{Argsort} (filtered : DataFrame) (g : Total) :
  g ∈ totals filtered →
  (int64 (column_sum report_count (rows_of_group (group_key g) filtered)) →
   total_reports g =
     column_sum report_count (rows_of_group (group_key g) filtered)) ∧
  (int64 (column_sum session_count (rows_of_group (group_key g) filtered)) →
   total_sessions g =
     column_sum session_count (rows_of_group (group_key g) filtered)).
Proof. intros Hg%elem_of_totals. by apply elem_of_groupby_agg_fit. Qed.

Lemma totals_are_group_sums_witness :
  let g := {| group_key := ("2", "B", "PaAN"); total_sessions := 15;
              total_reports := 40 |} in
  total_reports g =
    column_sum report_count
      (rows_of_group (group_key g) [row_b_tie; row_a; row_b]) ∧
  total_sessions g =
    column_sum session_count
      (rows_of_group (group_key g) [row_b_tie; row_a; row_b]).
Proof.
  intros g.
  destruct (@totals_are_group_sums stable_argsort [row_b_tie; row_a; row_b] g)
    as [Hreports Hsessions].
  { apply (bool_decide_eq_true_1 _). by vm_compute. }
  split; [apply Hreports|apply Hsessions]; by vm_compute.
Defined.




Lemma head_length {A} (n : Z) (l : list A) :
  0 ≤ n → Z.of_nat (length (head n l)) ≤ n.
Proof.
  intros Hn. unfold head. rewrite bool_decide_eq_true_2 by done.
  rewrite length_take. lia.
Qed.

Lemma head_prefix {A} (n : Z) (l : list A) : head n l `prefix_of` l.
Proof. unfold head. case_bool_decide; apply prefix_take. Qed.

Lemma plot_df_totals (totals : list Total) (top_n : Z) :
  plot_total <$> plot_df totals top_n = head top_n totals.
Proof.
  unfold plot_df. induction (head top_n totals) as [|g l IH]; [done|].
  rewrite !fmap_cons. by f_equal.
Qed.

Lemma StronglySorted_fmap_inv {A B} (f : A → B) (R : B → B → Prop) (l : list A) :
  StronglySorted R (f <$> l) → StronglySorted (λ a b, R (f a) (f b)) l.
Proof.
  induction l as [|x l IH]; [constructor|].
  rewrite fmap_cons. intros [Hl Hx]%StronglySorted_inv.
  constructor; [by apply IH|]. apply Forall_forall. intros y Hy.
  eapply Forall_forall in Hx; [exact Hx|]. by apply list_elem_of_fmap_2.
Qed.

(** X22: for a slider value N the selection has at most N rows and at most
    as many rows as there are distinct organization groups among the
    filtered rows, and it is a prefix of the totals; the chart's category
    order lists the labels of the selection in a descending order of
    [total_reports], and equals the order of the selection when no two
    selected groups have equal totals. *)
Theorem plot_df_top_n `{Argsort} (filtered : DataFrame) (top_n : Z) :
  5 ≤ top_n ≤ 50 →
  let selection := plot_df (totals filtered) top_n in
  Z.of_nat (length selection) ≤ top_n ∧
  (length selection ≤ distinct_orgs filtered)%nat ∧
  plot_total <$> selection `prefix_of` totals filtered ∧
  (∃ arranged,
     arranged ≡ₚ selection ∧
     StronglySorted
       (λ a b, total_reports (plot_total b) ≤ total_reports (plot_total a))
       arranged ∧
     org_order selection = label <$> arranged) ∧
  (NoDup (total_reports <$> (plot_total <$> selection)) →
   org_order selection = label <$> selection).
Proof.
  intros Hn selection.
  assert (plot_total <$> selection `prefix_of` totals filtered) as Hprefix.
  { subst selection. rewrite plot_df_totals. apply head_prefix. }
  split_and!.
  - rewrite <- (length_fmap plot_total). subst selection.
    rewrite plot_df_totals. apply head_length. lia.
  - rewrite <- (length_fmap plot_total).
    etrans; [by apply prefix_length|].
    unfold totals. rewrite sort_values_desc_perm. apply groupby_agg_length.
  - done.
  - exists (sort_values_desc (total_reports ∘ plot_total) selection).
    split_and!; [apply sort_values_desc_perm| |done].
    apply (sort_values_desc_sorted (total_reports ∘ plot_total)).
  - intros Hnodup. unfold org_order. f_equal.
    apply (descending_unique (total_reports ∘ plot_total)).
    + apply sort_values_desc_perm.
    + rewrite sort_values_desc_perm. by rewrite list_fmap_compose.
    + apply (sort_values_desc_sorted (total_reports ∘ plot_total)).
    + destruct Hprefix as [rest Hrest].
      pose proof (sort_values_desc_sorted total_reports (groupby_agg filtered))
        as Hsorted.
      fold (totals filtered) in Hsorted. rewrite Hrest in Hsorted.
      apply StronglySorted_app_1_l in Hsorted.
      by apply StronglySorted_fmap_inv in Hsorted.
Qed.

Lemma plot_df_top_n_witness :
  let selection := plot_df (@totals reversing_argsort [row_a; row_b]) 5 in
  Z.of_nat (length selection) ≤ 5 ∧
  plot_total <$> selection `prefix_of` @totals reversing_argsort [row_a; row_b] ∧
  @org_order reversing_argsort selection = label <$> selection.
Proof.
  destruct (@plot_df_top_n reversing_argsort [row_a; row_b] 5)
    as (Hlen & _ & Hprefix & _ & Horder); [lia|].
  split_and!; [exact Hlen|exact Hprefix|].
  apply Horder. apply (bool_decide_unpack _). by vm_compute.
Defined.

(** The scenario of two organizations and N = 1: the chart shows B alone,
    with 30 reports and 8 sessions, whichever of the two routines sorts. *)
Example chart_of_top_1 :
  let chart (S : Argsort) :=
    plot_long (plot_df (@totals S [row_a; row_b]) 1) in
  chart stable_argsort = chart reversing_argsort ∧
  chart stable_argsort =
    [{| long_label := "B"; metric := "total_reports"; value := 30;
        metric_label := Some "Reports" |};
     {| long_label := "B"; metric := "total_sessions"; value := 8;
        metric_label := Some "Sessions" |}].
Proof. by vm_compute. Qed.

(** * Further properties of the script *)

(** ** Building the client (lines 7-16) *)

Lemma init_supabase_fresh (env : Env) (s : Session) (url k : string) :
  resource_cache s = None →
  secrets env !! "SUPABASE_URL" = Some url → url ≠ "" →
  py_or (secrets env !! "SUPABASE_SECRET_KEY")
        (secrets env !! "SUPABASE_PUB_KEY") = Some k →
  k ≠ "" → credentials_ok env url k = true →
  init_supabase env s =
    (inr {| supabase_url := url; supabase_key := k |},
     {| ui := ui s;
        resource_cache := Some {| supabase_url := url; supabase_key := k |};
        data_cache := data_cache s; rpc_log := rpc_log s |}).
Proof.
  intros Hrc Hurl Hne Hkey Hk Hok. unfold init_supabase, cache_resource.
  rewrite Hrc. unfold bind, secrets_getitem. rewrite Hkey.
  unfold secrets in Hurl.
  destruct (secret_store env) as [store|]; simpl in Hurl;
    [|by rewrite lookup_empty in Hurl].
  rewrite Hurl. simpl.
  unfold create_client. rewrite decide_False by done.
  rewrite decide_False by done. by rewrite Hok.
Qed.
(** X1: the access key of the client is the secret key when the store has a
    non-empty one, whatever the public key is; the public key is used only
    when the secret key is missing or empty. *)
Theorem init_supabase_key_precedence (env : Env) (s : Session)
    (url k : string) :
  resource_cache s = None →
  secrets env !! "SUPABASE_URL" = Some url → url ≠ "" →
  k ≠ "" → credentials_ok env url k = true →
  secrets env !! "SUPABASE_SECRET_KEY" = Some k ∨
  ((secrets env !! "SUPABASE_SECRET_KEY" = None ∨
    secrets env !! "SUPABASE_SECRET_KEY" = Some "") ∧
   secrets env !! "SUPABASE_PUB_KEY" = Some k) →
  (init_supabase env s).1 = inr {| supabase_url := url; supabase_key := k |}.
Proof.
  intros Hrc Hurl Hne Hk Hok Hkey.
  rewrite (init_supabase_fresh env s url k); try done.
  destruct Hkey as [->|[[-> | ->] ->]]; simpl; [|done..].
  by rewrite decide_False.
Qed.

Lemma init_supabase_key_precedence_witness :
  let env :=
    {| secret_store :=
         Some (<["SUPABASE_URL" := "https://kdin.example"]>
                 (<["SUPABASE_SECRET_KEY" := "secret"]>
                    (<["SUPABASE_PUB_KEY" := "public"]> ∅)));
       execute := λ _ _, inr None; credentials_ok := λ _ _, true;
       clock := 0; slider_state := None; selectbox_state := None;
       month_filter := None; org_filter := None |} in
  (init_supabase env (start None ∅)).1 =
    inr {| supabase_url := "https://kdin.example"; supabase_key := "secret" |}.
Proof.
  intros env.
  apply (init_supabase_key_precedence env (start None ∅)
           "https://kdin.example" "secret"); try done.
  by left.
Defined.

Lemma init_supabase_cached (env : Env) (s s1 : Session) (supabase : Client) :
  init_supabase env s = (inr supabase, s1) → resource_cache s1 = Some supabase.
Proof.
  unfold init_supabase, cache_resource. intros Hinit.
  destruct (resource_cache s) as [c|] eqn:Hs.
  - by injection Hinit as <- <-.
  - destruct (bind _ _ s) as [[h|c] s'] eqn:Hbody; [done|].
    by injection Hinit as <- <-.
Qed.

Lemma init_supabase_of_cached (env : Env) (s : Session) (supabase : Client) :
  resource_cache s = Some supabase → init_supabase env s = (inr supabase, s).
Proof. intros Hrc. unfold init_supabase, cache_resource. by rewrite Hrc. Qed.

(** X2: once a run has built the client, every later run gets the same
    client without reading the secret store, whatever the store holds by
    then, and leaves the session as it is. *)
Theorem init_supabase_reuses_client (env env' : Env) (s s1 : Session)
    (supabase : Client) :
  init_supabase env s = (inr supabase, s1) →
  init_supabase env' s1 = (inr supabase, s1) ∧
  init_supabase env' (next_run s1) = (inr supabase, next_run s1).
Proof.
  intros Hrc%init_supabase_cached.
  split; by apply init_supabase_of_cached.
Qed.

Lemma init_supabase_reuses_client_witness :
  let s1 := (init_supabase (sample_env None None None) (start None ∅)).2 in
  init_supabase env_without_key (next_run s1) = (inr sample_client, next_run s1).
Proof.
  intros s1.
  apply (init_supabase_reuses_client (sample_env None None None)
           env_without_key (start None ∅) s1 sample_client).
  reflexivity.
Defined.

(** X3: with no client built yet, the call ends with the error of a missing
    secret store when the process has no store at all; with the key error of
    the URL when the store lacks the URL, also when the access key is missing
    as well; and with the client library's exception when the store has a
    URL but no non-empty access key under either name.  The session is left
    as it was. *)
Theorem init_supabase_errors (env : Env) (s : Session) :
  resource_cache s = None →
  (secret_store env = None →
   init_supabase env s = (inl (Raised StreamlitSecretNotFoundError), s)) ∧
  (∀ store, secret_store env = Some store → store !! "SUPABASE_URL" = None →
     init_supabase env s = (inl (Raised (KeyError "SUPABASE_URL")), s)) ∧
  (∀ url, secrets env !! "SUPABASE_URL" = Some url →
     py_or (secrets env !! "SUPABASE_SECRET_KEY")
           (secrets env !! "SUPABASE_PUB_KEY") = None ∨
     py_or (secrets env !! "SUPABASE_SECRET_KEY")
           (secrets env !! "SUPABASE_PUB_KEY") = Some "" →
     ∃ msg, init_supabase env s = (inl (Raised (SupabaseException msg)), s)).
Proof.
  intros Hrc. unfold init_supabase, cache_resource. rewrite Hrc.
  unfold bind, secrets_getitem. split_and!.
  - by intros ->.
  - by intros store -> ->.
  - intros url Hurl Hkey. unfold secrets in Hurl.
    destruct (secret_store env) as [store|]; simpl in Hurl;
      [|by rewrite lookup_empty in Hurl].
    rewrite Hurl. simpl. unfold create_client.
    destruct (decide (url = "")); [by eexists|].
    destruct Hkey as [-> | ->]; by eexists.
Qed.

Lemma init_supabase_errors_witness :
  init_supabase
    {| secret_store := None; execute := λ _ _, inr None;
       credentials_ok := λ _ _, true;
       clock := 0; slider_state := None; selectbox_state := None;
       month_filter := None; org_filter := None |} (start None ∅) =
    (inl (Raised StreamlitSecretNotFoundError), start None ∅) ∧
  init_supabase
    {| secret_store := Some ∅; execute := λ _ _, inr None;
       credentials_ok := λ _ _, true;
       clock := 0; slider_state := None; selectbox_state := None;
       month_filter := None; org_filter := None |} (start None ∅) =
    (inl (Raised (KeyError "SUPABASE_URL")), start None ∅) ∧
  ∃ msg, init_supabase env_without_key (start None ∅) =
           (inl (Raised (SupabaseException msg)), start None ∅).
Proof.
  split_and!.
  - by apply (init_supabase_errors _ (start None ∅)).
  - by apply (init_supabase_errors _ (start None ∅) eq_refl) with (store := ∅).
  - apply (init_supabase_errors env_without_key (start None ∅) eq_refl)
      with (url := "https://kdin.example"); [reflexivity|by left].
Defined.
(** ** The memoised fetcher (lines 40-51) *)

(** An entry that is stale stays stale. *)
Lemma cache_lookup_stale ttl' now now' key s :
  cache_lookup ttl' now key s = None → now ≤ now' →
  cache_lookup ttl' now' key s = None.
Proof.
  unfold cache_lookup. destruct (data_cache s !! key) as [[v stored]|]; [|done].
  intros Hnow Hle. case_bool_decide; [done|].
  rewrite bool_decide_eq_false_2; [done|lia].
Qed.

(** A call for one key leaves the entries of the other keys alone. *)
Lemma fetch_data_other_key env supabase type_option months orgs s key :
  key ≠ (type_option, months, orgs) →
  data_cache (fetch_data env supabase type_option months orgs s).2 !! key =
    data_cache s !! key.
Proof.
  intros Hne.
  destruct (cache_lookup ttl (clock env) (type_option, months, orgs) s)
    as [v|] eqn:Hc.
  - by rewrite (fetch_data_hit _ _ _ _ _ _ v).
  - rewrite fetch_data_miss by done.
    destruct (execute env supabase _); simpl; [done|].
    by rewrite lookup_insert_ne.
Qed.

(** X4: an error of the backend call is not memoised.  The failed call
    leaves the data cache as it was, and the next call with the same
    arguments goes to the backend again, however soon it comes. *)
Theorem failed_fetch_is_not_cached (env : Env) (supabase supabase' : Client)
    (type_option : TypeOption) (months orgs : option (list string))
    (s : Session) (e : Exn) (now' : Z)
    (answer' : Client → Payload → Exn + option DataFrame) :
  cache_lookup ttl (clock env) (type_option, months, orgs) s = None →
  execute env supabase (payload type_option months orgs) = inl e →
  clock env ≤ now' →
  let failed := fetch_data env supabase type_option months orgs s in
  failed.1 = inl (Raised e) ∧
  data_cache failed.2 = data_cache s ∧
  rpc_log (fetch_data (later now' answer' env) supabase' type_option months
             orgs failed.2).2 =
    rpc_log failed.2 ++ [payload type_option months orgs].
Proof.
  intros Hmiss Hfail Hnow failed. subst failed.
  rewrite fetch_data_miss, Hfail by done. simpl. split_and!; [done..|].
  rewrite fetch_data_miss; [simpl; by destruct (answer' supabase' _)|].
  simpl. by apply (cache_lookup_stale _ (clock env)).
Qed.

Lemma failed_fetch_is_not_cached_witness :
  let env :=
    {| secret_store := Some ∅; execute := λ _ _, inl (APIError "timeout");
       credentials_ok := λ _ _, true; clock := 1000; slider_state := None;
       selectbox_state := None; month_filter := None; org_filter := None |} in
  let failed := fetch_data env sample_client PaAN None None (start None ∅) in
  failed.1 = inl (Raised (APIError "timeout")) ∧
  data_cache failed.2 = ∅ ∧
  rpc_log (fetch_data (later 1000 (λ _ _, inr (Some [row_a])) env)
             sample_client PaAN None None failed.2).2 =
    rpc_log failed.2 ++ [payload PaAN None None].
Proof.
  intros env.
  apply (failed_fetch_is_not_cached env sample_client sample_client PaAN None
           None (start None ∅) (APIError "timeout") 1000
           (λ _ _, inr (Some [row_a]))); [reflexivity|reflexivity|simpl; lia].
Defined.

(** X5: the five minutes count from the call that went to the backend; a
    call answered from the cache does not renew them.  After a fetch at
    [clock env], a second fetch at [t1] inside the window changes nothing,
    and a third fetch at [t2], five minutes or more after the first, goes to
    the backend although less than five minutes have passed since [t1]. *)
Theorem cache_hit_does_not_renew (env : Env) (supabase : Client)
    (type_option : TypeOption) (months orgs : option (list string))
    (s s1 : Session) (v : DataFrame) (t1 t2 : Z)
    (answer1 answer2 : Client → Payload → Exn + option DataFrame) :
  cache_lookup ttl (clock env) (type_option, months, orgs) s = None →
  fetch_data env supabase type_option months orgs s = (inr v, s1) →
  t1 < clock env + 300 → clock env + 300 ≤ t2 →
  let s2 := (fetch_data (later t1 answer1 env) supabase type_option months
               orgs s1).2 in
  s2 = s1 ∧
  rpc_log (fetch_data (later t2 answer2 env) supabase type_option months
             orgs s2).2 = rpc_log s1 ++ [payload type_option months orgs].
Proof.
  intros Hmiss Hfirst Ht1 Ht2.
  rewrite fetch_data_miss in Hfirst by done.
  destruct (execute env supabase _) as [e|data]; [done|].
  injection Hfirst as <- <-. intros s2.
  assert (s2 = {| ui := ui s; resource_cache := resource_cache s;
                  data_cache := <[(type_option, months, orgs) :=
                                    (frame_of data, clock env)]> (data_cache s);
                  rpc_log := rpc_log s ++ [payload type_option months orgs] |})
    as ->.
  { subst s2. rewrite (fetch_data_hit _ _ _ _ _ _ (frame_of data)); [done|].
    rewrite cache_lookup_insert. rewrite bool_decide_eq_true_2; [done|].
    unfold ttl. simpl. lia. }
  split; [done|].
  rewrite fetch_data_miss; [simpl; by destruct (answer2 supabase _)|].
  rewrite cache_lookup_insert. rewrite bool_decide_eq_false_2; [done|].
  unfold ttl. simpl. lia.
Qed.

Lemma cache_hit_does_not_renew_witness :
  let env := sample_env (Some [row_a]) None None in
  let s1 := (fetch_data env sample_client Modu None None (start None ∅)).2 in
  let s2 := (fetch_data (later 1299 (λ _ _, inr None) env) sample_client Modu
               None None s1).2 in
  s2 = s1 ∧
  rpc_log (fetch_data (later 1300 (λ _ _, inr None) env) sample_client Modu
             None None s2).2 = rpc_log s1 ++ [payload Modu None None].
Proof.
  intros env s1.
  apply (cache_hit_does_not_renew env sample_client Modu None None
           (start None ∅) s1 [row_a] 1299 1300 (λ _ _, inr None)
           (λ _ _, inr None)); [reflexivity|reflexivity|simpl; lia|simpl; lia].
Defined.

(** X6: each argument tuple has its own entry.  After a fetch for one tuple,
    a fetch for another tuple, whatever its outcome, leaves the first entry
    in place: asking for the first tuple again inside its five minutes
    returns the first frame without a call to the backend. *)
Theorem fetch_other_arguments_keeps_entry (env : Env)
    (supabase supabase' supabase'' : Client)
    (type_option type_option' : TypeOption)
    (months orgs months' orgs' : option (list string))
    (s s1 : Session) (v : DataFrame) (t1 t2 : Z)
    (answer1 answer2 : Client → Payload → Exn + option DataFrame) :
  cache_lookup ttl (clock env) (type_option, months, orgs) s = None →
  fetch_data env supabase type_option months orgs s = (inr v, s1) →
  (type_option', months', orgs') ≠ (type_option, months, orgs) →
  t2 < clock env + 300 →
  let s2 := (fetch_data (later t1 answer1 env) supabase' type_option' months'
               orgs' s1).2 in
  fetch_data (later t2 answer2 env) supabase'' type_option months orgs s2 =
    (inr v, s2).
Proof.
  intros Hmiss Hfirst Hne Ht2 s2.
  rewrite fetch_data_miss in Hfirst by done.
  destruct (execute env supabase _) as [e|data]; [done|].
  injection Hfirst as <- <-.
  apply fetch_data_hit. unfold cache_lookup. subst s2.
  rewrite fetch_data_other_key by done. simpl.
  rewrite lookup_insert_eq. rewrite bool_decide_eq_true_2; [done|].
  unfold ttl. lia.
Qed.

Lemma fetch_other_arguments_keeps_entry_witness :
  let env := sample_env (Some [row_a]) None None in
  let s1 := (fetch_data env sample_client Modu None None (start None ∅)).2 in
  let s2 := (fetch_data (later 1100 (λ _ _, inr (Some [row_b])) env)
               sample_client PaAN None None s1).2 in
  fetch_data (later 1200 (λ _ _, inr None) env) sample_client Modu None None
    s2 = (inr [row_a], s2).
Proof.
  intros env s1.
  apply (fetch_other_arguments_keeps_entry env sample_client sample_client
           sample_client Modu PaAN None None None None (start None ∅) s1
           [row_a] 1100 1200 (λ _ _, inr (Some [row_b])) (λ _ _, inr None));
    [reflexivity|reflexivity|done|simpl; lia].
Defined.
(** ** The run as a whole *)

(** The fetch stage, statement by statement. *)
Lemma fetch_stage_run (env : Env) (s : Session) :
  fetch_stage env s =
    match init_supabase env s with
    | (inl h, s1) => (inl h, s1)
    | (inr supabase, s1) =>
        match fetch_data env supabase (default Modu (selectbox_state env)) None
                None (add_ui (header_elements env) s1) with
        | (inl h, s2) => (inl h, s2)
        | (inr df, s2) =>
            (inr (default 25 (slider_state env),
                  default Modu (selectbox_state env), df), s2)
        end
    end.
Proof.
  unfold fetch_stage.
  cbv beta iota zeta delta [bind emit ret st_slider st_selectbox].
  destruct (init_supabase env s) as [[h|supabase] [u rc dc lg]]; [done|].
  unfold add_ui, header_elements. simpl. rewrite <- !app_assoc. simpl.
  by destruct (fetch_data env supabase _ None None _) as [[h|df] s2].
Qed.

Lemma page_of_empty `{Argsort} env top_n type_option s :
  page env top_n type_option [] s = (inl Stopped, add_ui [info msg_no_results] s).
Proof. done. Qed.

(** X7: an error of the backend call ends the run with that error.  The
    page then holds the title block, the slider and the type selector and
    nothing else; the data cache is as it was. *)
Theorem backend_error_ends_run `{Argsort} (env : Env) (s s1 : Session)
    (supabase : Client) (e : Exn) :
  let type_option := default Modu (selectbox_state env) in
  init_supabase env s = (inr supabase, s1) →
  cache_lookup ttl (clock env) (type_option, None, None) s = None →
  execute env supabase (payload type_option None None) = inl e →
  ∃ s', app env s = (inl (Raised e), s') ∧
        ui s' = ui s ++ header_elements env ∧
        data_cache s' = data_cache s ∧
        rpc_log s' = rpc_log s ++ [payload type_option None None].
Proof.
  intros ty Hinit Hmiss Hfail. subst ty.
  pose proof (init_supabase_keeps env s) as Hkeep. rewrite Hinit in Hkeep.
  simpl in Hkeep. destruct Hkeep as (Hui & Hdc & Hlog).
  rewrite app_stages, fetch_stage_run, Hinit.
  rewrite fetch_data_miss, Hfail; cycle 1.
  { unfold cache_lookup in *. simpl. by rewrite Hdc. }
  eexists. split; [done|]. simpl. by rewrite Hui, Hdc, Hlog.
Qed.

Lemma backend_error_ends_run_witness :
  let env :=
    {| secret_store := Some (<["SUPABASE_URL" := "https://kdin.example"]>
                               (<["SUPABASE_PUB_KEY" := "key"]> ∅));
       execute := λ _ _, inl (APIError "timeout");
       credentials_ok := λ _ _, true; clock := 1000; slider_state := Some 10;
       selectbox_state := Some PaAN; month_filter := None;
       org_filter := None |} in
  ∃ s', @app stable_argsort env (start None ∅) =
          (inl (Raised (APIError "timeout")), s') ∧
        ui s' = [] ++ header_elements env ∧
        data_cache s' = ∅ ∧
        rpc_log s' = [] ++ [payload PaAN None None].
Proof.
  intros env.
  apply (@backend_error_ends_run stable_argsort env (start None ∅)
           (start (Some sample_client) ∅) sample_client (APIError "timeout"));
    reflexivity.
Defined.

(** X8: an empty answer is memoised like any other.  When the backend
    answers a run with no rows (or a null payload), the page ends after the
    "no results" message; and a run within the next five minutes shows the
    same page without a call to the backend, whatever the backend would
    answer by then. *)
Theorem empty_answer_is_memoised `{Argsort} (env : Env) (s s1 : Session)
    (supabase : Client) (data : option DataFrame) (now' : Z)
    (answer' : Client → Payload → Exn + option DataFrame) :
  let type_option := default Modu (selectbox_state env) in
  init_supabase env s = (inr supabase, s1) →
  cache_lookup ttl (clock env) (type_option, None, None) s = None →
  execute env supabase (payload type_option None None) = inr data →
  data = None ∨ data = Some [] →
  now' < clock env + 300 →
  ∃ s' s'',
    app env s = (inl Stopped, s') ∧
    ui s' = ui s ++ header_elements env ++ [info msg_no_results] ∧
    app (later now' answer' env) (next_run s') = (inl Stopped, s'') ∧
    ui s'' = header_elements env ++ [info msg_no_results] ∧
    rpc_log s'' = [].
Proof.
  intros ty Hinit Hmiss Hdata Hempty Hnow. subst ty.
  pose proof (init_supabase_keeps env s) as Hkeep. rewrite Hinit in Hkeep.
  simpl in Hkeep. destruct Hkeep as (Hui & Hdc & Hlog).
  pose proof (init_supabase_cached env s s1 supabase Hinit) as Hrc.
  assert (frame_of data = []) as Hframe by (by destruct Hempty as [-> | ->]).
  eexists _, _. split_and!.
  - rewrite app_stages, fetch_stage_run, Hinit.
    rewrite fetch_data_miss, Hdata, Hframe; cycle 1.
    { unfold cache_lookup in *. simpl. by rewrite Hdc. }
    by rewrite page_of_empty.
  - simpl. by rewrite Hui, <- app_assoc.
  - rewrite app_stages, fetch_stage_run. simpl.
    rewrite (init_supabase_of_cached _ _ supabase) by done.
    rewrite (fetch_data_hit _ _ _ _ _ _ []); cycle 1.
    { unfold cache_lookup. simpl. rewrite lookup_insert_eq.
      rewrite bool_decide_eq_true_2; [done|]. unfold ttl. lia. }
    by rewrite page_of_empty.
  - done.
  - done.
Qed.

Lemma empty_answer_is_memoised_witness :
  let env := sample_env (Some []) None None in
  ∃ s' s'',
    @app stable_argsort env (start None ∅) = (inl Stopped, s') ∧
    ui s' = [] ++ header_elements env ++ [info msg_no_results] ∧
    @app stable_argsort (later 1299 (λ _ _, inr (Some [row_a; row_b])) env)
      (next_run s') = (inl Stopped, s'') ∧
    ui s'' = header_elements env ++ [info msg_no_results] ∧
    rpc_log s'' = [].
Proof.
  intros env.
  apply (@empty_answer_is_memoised stable_argsort env (start None ∅)
           (start (Some sample_client) ∅) sample_client (Some []) 1299
           (λ _ _, inr (Some [row_a; row_b])));
    [reflexivity|reflexivity|reflexivity|by right|simpl; lia].
Defined.

(** X9: a run calls the backend at most once, and not at all when the cache
    holds a fresh entry for the selected type. *)
Theorem run_calls_backend_at_most_once `{Argsort} (env : Env) (s : Session) :
  ∃ new, rpc_log (app env s).2 = rpc_log s ++ new ∧
         (length new ≤ 1)%nat ∧
         (is_Some (cache_lookup ttl (clock env)
                     (default Modu (selectbox_state env), None, None) s) →
          new = []).
Proof.
  destruct (app_rpc_log env s) as [-> _]. rewrite fetch_stage_run.
  pose proof (init_supabase_keeps env s) as (_ & Hdc & Hlog).
  destruct (init_supabase env s) as [[h|supabase] s1]; simpl in Hdc, Hlog.
  { exists []. simpl. rewrite Hlog, app_nil_r. split_and!; [done|lia|done]. }
  destruct (cache_lookup ttl (clock env)
              (default Modu (selectbox_state env), None, None) s)
    as [v|] eqn:Hc.
  - exists []. rewrite (fetch_data_hit _ _ _ _ _ _ v); cycle 1.
    { unfold cache_lookup in *. simpl. by rewrite Hdc. }
    simpl. rewrite Hlog, app_nil_r. split_and!; [done|lia|done].
  - eexists [_]. rewrite fetch_data_miss; cycle 1.
    { unfold cache_lookup in *. simpl. by rewrite Hdc. }
    split_and!; [|simpl; lia|by intros [? ?]].
    destruct (execute env supabase _); simpl; by rewrite Hlog.
Qed.

Lemma run_calls_backend_at_most_once_witness :
  let env := sample_env (Some [row_a; row_b]) None None in
  let cache : gmap CacheKey (DataFrame * Z) :=
    <[(Modu, None, None) := ([row_a], 900)]> ∅ in
  ∃ new, rpc_log (@app stable_argsort env (start None cache)).2 = [] ++ new ∧
         new = [].
Proof.
  intros env cache.
  destruct (@run_calls_backend_at_most_once stable_argsort env
              (start None cache)) as (new & Hlog & _ & Hhit).
  exists new. split; [exact Hlog|]. apply Hhit.
  unfold start, cache. rewrite cache_lookup_insert. by eexists.
Defined.

Lemma sublist_StronglySorted {A} (R : A → A → Prop) (l1 l2 : list A) :
  l1 `sublist_of` l2 → StronglySorted R l2 → StronglySorted R l1.
Proof.
  induction 1 as [|x l1 l2 Hsub IH|x l1 l2 Hsub IH];
    intros Hs; [done|..]; apply StronglySorted_inv in Hs as [Hl2 Hx].
  - constructor; [by apply IH|].
    apply Forall_forall. intros y Hy. eapply Forall_forall in Hx; [exact Hx|].
    by eapply elem_of_sublist.
  - by apply IH.
Qed.

Lemma fetch_data_keeps_ui env supabase type_option months orgs s :
  ui (fetch_data env supabase type_option months orgs s).2 = ui s.
Proof.
  destruct (cache_lookup ttl (clock env) (type_option, months, orgs) s)
    as [v|] eqn:Hc.
  - by rewrite (fetch_data_hit _ _ _ _ _ _ v).
  - rewrite fetch_data_miss by done. by destruct (execute env supabase _).
Qed.

(** The only table of rows on a page is the filtered frame. *)
Lemma page_tables `{Argsort} env top_n type_option df s :
  ∃ new, ui (page env top_n type_option df s).2 = ui s ++ new ∧
    ∀ cols rows, dataframe cols rows ∈ new →
      rows = filtered df (default (all_months df) (month_filter env))
               (default (all_orgs df) (org_filter env)).
Proof.
  destruct s as [u rc dc lg].
  run_page; simpl; eexists; (split; [done|]); intros cols rows; elem_of_page;
    congruence.
Qed.

Lemma cache_sorted_same (s s' : Session) :
  data_cache s' = data_cache s → cache_sorted s → cache_sorted s'.
Proof. unfold cache_sorted. by intros ->. Qed.

(** X10: the table of rows on the page is in the order of the fetcher, by
    month and then by organization name, also when the frame comes from the
    cache and after the row filter; and a run leaves only frames in that
    order in the cache.  (The cache of a new process is empty.) *)
Theorem run_shows_sorted_table `{Argsort} (env : Env) (s : Session) :
  cache_sorted s →
  cache_sorted (app env s).2 ∧
  ∃ new, ui (app env s).2 = ui s ++ new ∧
    ∀ cols rows, dataframe cols rows ∈ new → StronglySorted month_org_le rows.
Proof.
  intros Hs. rewrite app_stages, fetch_stage_run.
  pose proof (init_supabase_keeps env s) as (Hui & Hdc & _).
  destruct (init_supabase env s) as [[h|supabase] s1]; simpl in Hui, Hdc.
  { split; [by apply (cache_sorted_same s)|].
    exists []. simpl. rewrite Hui, app_nil_r. split; [done|].
    by intros ?? ?%elem_of_nil. }
  assert (cache_sorted (add_ui (header_elements env) s1)) as Hs1
    by (by apply (cache_sorted_same s)).
  pose proof (fetch_data_cache_sorted env supabase
                (default Modu (selectbox_state env)) None None _ Hs1)
    as [Hs2 Hdf].
  pose proof (fetch_data_keeps_ui env supabase
                (default Modu (selectbox_state env)) None None
                (add_ui (header_elements env) s1)) as Hui2.
  destruct (fetch_data env supabase _ None None _) as [[h|df] s2];
    simpl in Hs2, Hdf, Hui2.
  { split; [done|]. exists (header_elements env). simpl.
    rewrite Hui2, Hui. split; [done|]. intros cols rows.
    unfold header_elements. elem_of_page. }
  pose proof (page_keeps env (default 25 (slider_state env))
                (default Modu (selectbox_state env)) df s2) as (_ & Hdc2 & _).
  destruct (page_tables env (default 25 (slider_state env))
              (default Modu (selectbox_state env)) df s2)
    as (new & Hnew & Htables).
  split; [by apply (cache_sorted_same s2)|].
  exists (header_elements env ++ new). rewrite Hnew, Hui2.
  unfold add_ui. cbn [ui]. rewrite Hui, <- app_assoc. split; [done|].
  intros cols rows [Hin|Hin]%elem_of_app.
  - revert Hin. unfold header_elements. elem_of_page.
  - rewrite (Htables cols rows Hin).
    eapply sublist_StronglySorted; [apply filtered_sublist|by apply Hdf].
Qed.

Lemma run_shows_sorted_table_witness :
  let env := sample_env (Some [row_b_tie; row_b; row_a]) None (Some ["B"]) in
  cache_sorted (@app stable_argsort env (start None ∅)).2 ∧
  ∃ new, ui (@app stable_argsort env (start None ∅)).2 = [] ++ new ∧
    dataframe display_cols [row_b; row_b_tie] ∈ new ∧
    StronglySorted month_org_le [row_b; row_b_tie].
Proof.
  intros env.
  destruct (@run_shows_sorted_table stable_argsort env (start None ∅))
    as (Hcache & new & Hui & Hsorted).
  { intros key v stored. simpl. by rewrite lookup_empty. }
  split; [exact Hcache|]. exists new. split; [exact Hui|].
  assert (dataframe display_cols [row_b; row_b_tie] ∈ new) as Hin.
  { simpl in Hui. rewrite <- Hui. apply (bool_decide_eq_true_1 _). by vm_compute. }
  split; [exact Hin|]. exact (Hsorted _ _ Hin).
Defined.
(** ** The row filter and the page (lines 55-100) *)

Lemma filtered_all (df : DataFrame) :
  filtered df (all_months df) (all_orgs df) = df.
Proof.
  rewrite <- filtered_empty_months, <- filtered_empty_orgs. done.
Qed.

Lemma counts_int64_serialisable (r : Row) : counts_int64 r → serialisable r.
Proof. unfold counts_int64, serialisable, int64, fits_64_bits. lia. Qed.

Lemma filtered_serialisable (df : DataFrame) (sm so : list string) :
  Forall counts_int64 df → Forall serialisable (filtered df sm so).
Proof.
  intros Hdf. apply Forall_forall. intros r [Hr _]%elem_of_filtered.
  eapply Forall_forall in Hdf; [|exact Hr].
  by apply counts_int64_serialisable.
Qed.

(** X11: on the first page of a non-empty frame whose counts are 64-bit
    signed integers, with both multi-select widgets untouched, the table
    holds every fetched row, in the order of the fetched frame, and the
    "no rows match filter" warning is not shown. *)
Theorem untouched_filters_show_every_row `{Argsort} (env : Env) (top_n : Z)
    (type_option : TypeOption) (df : DataFrame) (s : Session) :
  df ≠ [] → Forall counts_int64 df →
  month_filter env = None → org_filter env = None →
  ∃ new, ui (page env top_n type_option df s).2 = ui s ++ new ∧
         dataframe display_cols df ∈ new ∧
         warning msg_no_filter_match ∉ new.
Proof.
  intros Hdf Hint Hm Ho. destruct s as [u rc dc lg].
  pose proof (filtered_serialisable df (all_months df) (all_orgs df) Hint)
    as Hser.
  run_page; [done|..];
    match goal with
    | Hf : filtered _ _ _ = _ |- _ =>
        rewrite Hm, Ho in Hf; simpl in Hf; rewrite Hf in Hser;
        rewrite filtered_all in Hf
    end; [done| |done].
  match goal with Hf : _ = _ :: _ |- _ => rewrite <- Hf end.
  eexists. split; [done|]. simpl. elem_of_page.
Qed.

Lemma untouched_filters_show_every_row_witness :
  ∃ new,
    ui (@page stable_argsort (sample_env None None None) 25 Modu
          [row_a; row_b; row_b_tie] (start None ∅)).2 = [] ++ new ∧
    dataframe display_cols [row_a; row_b; row_b_tie] ∈ new ∧
    warning msg_no_filter_match ∉ new.
Proof.
  apply (@untouched_filters_show_every_row stable_argsort
           (sample_env None None None) 25 Modu [row_a; row_b; row_b_tie]
           (start None ∅)); [done| |done|done].
  repeat constructor; by vm_compute.
Defined.

Lemma filter_sublist_impl {A} (P Q : A → Prop) `{!∀ x, Decision (P x)}
    `{!∀ x, Decision (Q x)} (l : list A) :
  (∀ x, P x → Q x) → filter P l `sublist_of` filter Q l.
Proof.
  intros HPQ. induction l as [|x l IH]; [done|].
  rewrite !filter_cons. destruct (decide (P x)) as [HP|HP].
  - rewrite decide_True by auto. by constructor.
  - case_decide; [by constructor|done].
Qed.

Lemma filter_filter_sublist {A} (P : A → Prop) `{!∀ x, Decision (P x)}
    (l1 l2 : list A) :
  l1 `sublist_of` l2 → filter P l1 `sublist_of` filter P l2.
Proof.
  induction 1 as [|x l1 l2 Hsub IH|x l1 l2 Hsub IH]; [done|..];
    rewrite ?filter_cons; repeat case_decide; try done; by constructor.
Qed.

(** X12: as long as neither selection is empty, selecting more never shows
    fewer rows: the rows shown for smaller selections are among the rows
    shown for larger ones, in the same order.  (An empty selection shows
    more, not fewer, rows than any other.) *)
Theorem filtered_monotone (df : DataFrame) (sm sm' so so' : list string) :
  sm ≠ [] → so ≠ [] → sm ⊆ sm' → so ⊆ so' →
  filtered df sm so `sublist_of` filtered df sm' so' ∧
  filtered df sm so `sublist_of` filtered df [] so ∧
  filtered df sm so `sublist_of` filtered df sm [].
Proof.
  intros Hsm Hso Hm Ho.
  assert (sm' ≠ []) as Hsm'.
  { destruct sm as [|m sm]; [done|]. intros ->.
    by apply (not_elem_of_nil m), Hm; left. }
  assert (so' ≠ []) as Hso'.
  { destruct so as [|o so]; [done|]. intros ->.
    by apply (not_elem_of_nil o), Ho; left. }
  unfold filtered.
  destruct sm as [|m sm], so as [|o so], sm' as [|m' sm'], so' as [|o' so'];
    try done; simpl.
  split_and!.
  - etrans; [apply (filter_sublist_impl _ (λ r, orgGroupName r ∈ o' :: so'))|].
    { intros r. apply Ho. }
    apply filter_filter_sublist. apply filter_sublist_impl. intros r. apply Hm.
  - apply filter_filter_sublist. apply sublist_filter.
  - apply sublist_filter.
Qed.

Lemma filtered_monotone_witness :
  filtered [row_a; row_b; row_b_tie] ["2024-01"] ["B"] `sublist_of`
    filtered [row_a; row_b; row_b_tie] ["2024-01"; "2024-02"] ["A"; "B"].
Proof.
  apply (filtered_monotone [row_a; row_b; row_b_tie] ["2024-01"] 
           ["2024-01"; "2024-02"] ["B"] ["A"; "B"]); [done|done|..];
    intros x ->%list_elem_of_singleton; apply (bool_decide_unpack _);
    by vm_compute.
Defined.
(** ** The aggregation (lines 102-108) *)

Lemma totals_sum_perm (col : Total → Z) (l1 l2 : list Total) :
  l1 ≡ₚ l2 → totals_sum col l1 = totals_sum col l2.
Proof.
  induction 1 as [|x l1 l2 _ IH|x y l|l1 l2 l3 _ IH1 _ IH2]; simpl; lia.
Qed.

Lemma column_sum_perm (col : Row → Z) (l1 l2 : DataFrame) :
  l1 ≡ₚ l2 → column_sum col l1 = column_sum col l2.
Proof.
  induction 1 as [|x l1 l2 _ IH|x y l|l1 l2 l3 _ IH1 _ IH2]; simpl; lia.
Qed.

Lemma totals_sum_exact_accumulate k s r acc :
  totals_sum total_sessions (exact_accumulate k s r acc) =
    totals_sum total_sessions acc + s ∧
  totals_sum total_reports (exact_accumulate k s r acc) =
    totals_sum total_reports acc + r.
Proof.
  induction acc as [|g acc [IHs IHr]]; simpl; [lia|].
  destruct (key_compare k (group_key g)); simpl; lia.
Qed.

Lemma totals_sum_exact_groupby (df : DataFrame) :
  totals_sum total_sessions (exact_groupby df) =
    column_sum session_count (rows_with_key df) ∧
  totals_sum total_reports (exact_groupby df) =
    column_sum report_count (rows_with_key df).
Proof.
  induction df as [|r df [IHs IHr]] using rev_ind; [done|].
  rewrite exact_groupby_snoc. unfold rows_with_key in *. rewrite filter_app.
  unfold exact_step. destruct (group_of r) as [k|] eqn:Hk.
  - rewrite filter_cons, decide_True by (by rewrite Hk). rewrite filter_nil.
    rewrite !column_sum_snoc.
    destruct (totals_sum_exact_accumulate k (session_count r) (report_count r)
                (exact_groupby df)) as [-> ->]. lia.
  - rewrite filter_cons, decide_False by (rewrite Hk; by intros [? ?]).
    rewrite filter_nil, app_nil_r. done.
Qed.

(** X13: as long as no group's sum leaves the range of 64-bit signed
    integers, the totals add up to the counts of the filtered rows whose
    three key columns are set: over all groups, the total reports (sessions)
    sum to the report (session) counts of those rows.  The counts of a row
    with a null organization type are in no total, although the row is in
    the table. *)
Theorem totals_conserve_counts `{Argsort} (filtered : DataFrame) :
  group_sums_fit filtered →
  totals_sum total_reports (totals filtered) =
    column_sum report_count (rows_with_key filtered) ∧
  totals_sum total_sessions (totals filtered) =
    column_sum session_count (rows_with_key filtered) ∧
  ∀ r, r ∈ filtered → orgType r = None →
       (r ∉ rows_with_key filtered) ∧
       ∀ g, g ∈ totals filtered → r ∉ rows_of_group (group_key g) filtered.
Proof.
  intros Hfit. unfold totals.
  rewrite !(totals_sum_perm _ _ _ (sort_values_desc_perm _ _)).
  rewrite groupby_agg_exact by done.
  destruct (totals_sum_exact_groupby filtered) as [-> ->].
  split_and!; [done..|].
  intros r Hr Hnull.
  assert (group_of r = None) as Hk by (unfold group_of; by rewrite Hnull).
  split.
  - unfold rows_with_key. rewrite list_elem_of_filter, Hk. by intros [[? ?] _].
  - intros g _. unfold rows_of_group. rewrite list_elem_of_filter, Hk.
    by intros [? _].
Qed.

Lemma totals_conserve_counts_witness :
  let untyped :=
    {| month := "2024-01"; orgGroupId := "3"; orgGroupName := "C";
       orgType := None; unique_users := 1; session_count := 2;
       report_count := 4 |} in
  totals_sum total_reports (@totals stable_argsort [row_a; untyped; row_b]) =
    40 ∧
  untyped ∉ rows_with_key [row_a; untyped; row_b].
Proof.
  intros untyped.
  destruct (@totals_conserve_counts stable_argsort [row_a; untyped; row_b])
    as (Hreports & _ & Hnull).
  { intros k. unfold rows_of_group. rewrite !filter_cons, filter_nil.
    repeat case_decide; by vm_compute. }
  split; [by rewrite Hreports|].
  apply Hnull; [|done]. apply (bool_decide_unpack _). by vm_compute.
Defined.

(** X14: there are exactly as many groups in the totals as there are
    distinct key triples among the filtered rows whose key columns are
    set. *)
Theorem totals_count_groups `{Argsort} (filtered : DataFrame) :
  length (totals filtered) = length (unique (omap group_of filtered)).
Proof.
  unfold totals. rewrite sort_values_desc_perm.
  rewrite <- (length_fmap group_key). apply Permutation_length.
  apply NoDup_Permutation.
  - apply keys_sorted_NoDup, keys_sorted_groupby_agg.
  - apply NoDup_unique.
  - intros k. rewrite elem_of_groupby_agg_keys, elem_of_unique.
    rewrite list_elem_of_omap. done.
Qed.

(** Two lists of accumulators in key order with the same accumulator for
    every key are the same list. *)
Lemma keys_sorted_ext (acc1 acc2 : list Total) :
  keys_sorted acc1 → keys_sorted acc2 →
  (∀ k, find_group k acc1 = find_group k acc2) → acc1 = acc2.
Proof.
  intros Hs1 Hs2 Hfind.
  assert (∀ g, g ∈ acc1 ↔ g ∈ acc2) as Hin.
  { intros g. split; intros Hg.
    - apply (find_group_sorted _ _ Hs1) in Hg. rewrite Hfind in Hg.
      by apply find_group_elem_of in Hg as [? _].
    - apply (find_group_sorted _ _ Hs2) in Hg. rewrite <- Hfind in Hg.
      by apply find_group_elem_of in Hg as [? _]. }
  eapply StronglySorted_unique_strong; [|exact Hs1|exact Hs2|].
  - intros g1 g2 _ _ H12 H21. exfalso.
    pose proof (key_compare_Lt_trans _ _ _ H12 H21) as Hrefl.
    by rewrite key_compare_refl in Hrefl.
  - apply NoDup_Permutation; [| |done].
    + eapply NoDup_fmap_1, keys_sorted_NoDup, Hs1.
    + eapply NoDup_fmap_1, keys_sorted_NoDup, Hs2.
Qed.

(** X15: the totals do not depend on the order of the filtered rows: two
    frames with the same rows in any order give the same totals. *)
Theorem totals_ignore_row_order `{Argsort} (filtered1 filtered2 : DataFrame) :
  filtered1 ≡ₚ filtered2 → totals filtered1 = totals filtered2.
Proof.
  intros Hperm. unfold totals. f_equal.
  apply keys_sorted_ext; [apply keys_sorted_groupby_agg..|].
  intros k. rewrite !find_group_groupby_agg.
  assert (rows_of_group k filtered1 ≡ₚ rows_of_group k filtered2) as Hrows.
  { unfold rows_of_group. by rewrite Hperm. }
  destruct (rows_of_group k filtered1) as [|r1 l1],
    (rows_of_group k filtered2) as [|r2 l2]; [done| | |].
  - by apply Permutation_nil_cons in Hrows.
  - symmetry in Hrows. by apply Permutation_nil_cons in Hrows.
  - f_equal. f_equal; f_equal; by apply column_sum_perm.
Qed.

Lemma totals_ignore_row_order_witness :
  @totals reversing_argsort [row_b_tie; row_a; row_b] =
    @totals reversing_argsort [row_a; row_b; row_b_tie].
Proof.
  apply (@totals_ignore_row_order reversing_argsort).
  etrans; [apply perm_swap|]. apply perm_skip, perm_swap.
Defined.
(** ** The chart (lines 113-149) *)

(** X16: for a slider value N the chart selection has exactly min(N, number
    of groups) rows; when there are at most N groups it is the whole of the
    totals. *)
Theorem plot_df_size `{Argsort} (filtered : DataFrame) (top_n : Z) :
  0 ≤ top_n →
  length (plot_df (totals filtered) top_n) =
    Nat.min (Z.to_nat top_n) (length (totals filtered)) ∧
  (Z.of_nat (length (totals filtered)) ≤ top_n →
   plot_total <$> plot_df (totals filtered) top_n = totals filtered).
Proof.
  intros Hn. rewrite <- (length_fmap plot_total), plot_df_totals.
  unfold head. rewrite bool_decide_eq_true_2 by done. split.
  - apply length_take.
  - intros Hall. apply take_ge. lia.
Qed.

Lemma plot_df_size_witness :
  length (plot_df (@totals stable_argsort [row_a; row_b; row_b_tie]) 5) =
    Nat.min (Z.to_nat 5) (length (@totals stable_argsort
                                    [row_a; row_b; row_b_tie])) ∧
  plot_total <$> plot_df (@totals stable_argsort [row_a; row_b; row_b_tie]) 5 =
    @totals stable_argsort [row_a; row_b; row_b_tie].
Proof.
  destruct (@plot_df_size stable_argsort [row_a; row_b; row_b_tie] 5)
    as [Hlen Hall]; [lia|].
  split; [exact Hlen|]. apply Hall. by vm_compute.
Defined.

(** X17: the selection is the top of the totals: no group left out of the
    chart has more reports than a group in it. *)
Theorem plot_df_holds_the_largest `{Argsort} (filtered : DataFrame) (top_n : Z)
    (p : PlotRow) (g : Total) :
  p ∈ plot_df (totals filtered) top_n →
  g ∈ totals filtered →
  g ∉ plot_total <$> plot_df (totals filtered) top_n →
  total_reports g ≤ total_reports (plot_total p).
Proof.
  rewrite plot_df_totals. intros Hp Hg Hout.
  apply (list_elem_of_fmap_2 plot_total) in Hp. rewrite plot_df_totals in Hp.
  destruct (head_prefix top_n (totals filtered)) as [rest Hrest].
  pose proof (sort_values_desc_sorted total_reports (groupby_agg filtered))
    as Hsorted.
  fold (totals filtered) in Hsorted. rewrite Hrest in Hsorted, Hg.
  apply elem_of_app in Hg as [Hg|Hg]; [done|].
  by apply (StronglySorted_app_1_elem_of _ _ _ _ _ Hsorted).
Qed.

Lemma plot_df_holds_the_largest_witness :
  let g_a := {| group_key := ("1", "A", "PaAN"); total_sessions := 5;
                total_reports := 10 |} in
  let p_b := {| plot_total := {| group_key := ("2", "B", "PaAN");
                                 total_sessions := 8; total_reports := 30 |};
                label := "B" |} in
  total_reports g_a ≤ total_reports (plot_total p_b).
Proof.
  intros g_a p_b.
  apply (@plot_df_holds_the_largest stable_argsort [row_a; row_b] 1 p_b g_a).
  - apply (bool_decide_unpack _). by vm_compute.
  - apply (bool_decide_unpack _). by vm_compute.
  - apply (bool_decide_eq_false_1 _). by vm_compute.
Defined.

(** X18: the chart frame has two rows for every row of the selection, one
    under the display name "Reports" with the group's total reports and one
    under "Sessions" with its total sessions, both labelled with the
    group's organization name; it has no other rows and no row without a
    display name. *)
Theorem plot_long_rows (totals : list Total) (top_n : Z) :
  length (plot_long (plot_df totals top_n)) =
    (2 * length (head top_n totals))%nat ∧
  ∀ row, row ∈ plot_long (plot_df totals top_n) ↔
    ∃ g, g ∈ head top_n totals ∧
         long_label row = (group_key g).1.2 ∧
         ((metric row = "total_reports" ∧ metric_label row = Some "Reports" ∧
           value row = total_reports g) ∨
          (metric row = "total_sessions" ∧
           metric_label row = Some "Sessions" ∧
           value row = total_sessions g)).
Proof.
  unfold plot_long, plot_df. split.
  { rewrite length_app, !length_fmap. lia. }
  intros row. rewrite elem_of_app, !list_elem_of_fmap. split.
  - intros [(p & -> & (g & -> & Hg)%list_elem_of_fmap)
           |(p & -> & (g & -> & Hg)%list_elem_of_fmap)];
      exists g; simpl; split_and!; try done; [left|right]; done.
  - intros (g & Hg & Hlabel & [(Hm & Hl & Hv)|(Hm & Hl & Hv)]);
      [left|right];
      (eexists; split; [|apply list_elem_of_fmap_2, Hg]);
      destruct row; simpl in *; by subst.
Qed.

(** X19: a page built from a non-empty frame whose counts are 64-bit signed
    integers shows one of two things.  When the row filter leaves no row: the
    "no rows match filter" warning and the "nothing to aggregate" message,
    and neither the table, nor the totals, nor the chart.  Otherwise: the
    table of the filtered rows, the totals and the chart of the top-N
    selection in the category order of line 115, and neither message.  In
    both cases the page completes and ends with the panel that echoes the
    type option and the two selections. *)
Theorem page_shows_messages_or_tables `{Argsort} (env : Env) (top_n : Z)
    (type_option : TypeOption) (df : DataFrame) (s : Session) :
  df ≠ [] → Forall counts_int64 df →
  let selected_months := default (all_months df) (month_filter env) in
  let selected_orgs := default (all_orgs df) (org_filter env) in
  let filtered := filtered df selected_months selected_orgs in
  let selection := plot_df (totals filtered) top_n in
  ∃ new,
    page env top_n type_option df s = (inr (), add_ui new s) ∧
    last new = Some (expander_code (type_label type_option) selected_months
                       selected_orgs) ∧
    (filtered = [] →
     warning msg_no_filter_match ∈ new ∧
     info msg_nothing_to_aggregate ∈ new ∧
     ∀ e, e ∈ new →
       (∀ cols rows, e ≠ dataframe cols rows) ∧
       (∀ rows, e ≠ dataframe_totals rows) ∧
       (∀ data x_sort, e ≠ altair_chart data x_sort)) ∧
    (filtered ≠ [] →
     dataframe display_cols filtered ∈ new ∧
     dataframe_totals (totals filtered) ∈ new ∧
     altair_chart (plot_long selection) (org_order selection) ∈ new ∧
     ∀ e, e ∈ new → (∀ body, e ≠ warning body) ∧ (∀ body, e ≠ info body)).
Proof.
  intros Hdf Hint sm so f selection.
  pose proof (filtered_serialisable df sm so Hint) as Hser.
  subst sm so f selection.
  destruct s as [u rc dc lg]. unfold add_ui.
  run_page; [done| | |done]; simpl; eexists;
    (split; [done|]); simpl;
    (split; [done|]); (split; [intros Hf'|intros Hf']); try done.
  - split_and!; [elem_of_page..|]. intros e. elem_of_page; by subst.
  - split_and!; [elem_of_page..|]. intros e. elem_of_page; by subst.
Qed.

Lemma page_shows_messages_or_tables_witness :
  ∃ new,
    @page stable_argsort (sample_env None (Some ["2024-01"]) (Some ["B"])) 25
      Modu [row_a; row_b_tie] (start None ∅) =
      (inr (), add_ui new (start None ∅)) ∧
    warning msg_no_filter_match ∈ new ∧
    info msg_nothing_to_aggregate ∈ new.
Proof.
  destruct (@page_shows_messages_or_tables stable_argsort
              (sample_env None (Some ["2024-01"]) (Some ["B"])) 25 Modu
              [row_a; row_b_tie] (start None ∅))
    as (new & Hpage & _ & Hempty & _); [done| |].
  { repeat constructor; by vm_compute. }
  exists new. split; [exact Hpage|].
  destruct Hempty as (Hw & Hi & _); [by vm_compute|]. by split.
Defined.
(** ** The order of the fetched frame (line 50) *)

Section StableSortKeeps.
Context {A : Type} (leb : A → A → bool) (P : A → Prop) `{!∀ x, Decision (P x)}.
Hypothesis leb_within : ∀ x y, P x → P y → leb x y = true.

Lemma insert_sorted_filter (x : A) (l : list A) :
  filter P (insert_sorted leb x l) = filter P (x :: l).
Proof.
  induction l as [|y l IH]; simpl; [done|].
  destruct (leb x y) eqn:Hxy; [done|].
  rewrite (filter_cons _ y), IH, !filter_cons.
  destruct (decide (P x)) as [Hx|Hx], (decide (P y)) as [Hy|Hy]; try done.
  rewrite leb_within in Hxy by done. done.
Qed.

Lemma stable_sort_filter (l : list A) : filter P (stable_sort leb l) = filter P l.
Proof.
  induction l as [|x l IH]; simpl; [done|].
  by rewrite insert_sorted_filter, !filter_cons, IH.
Qed.

End StableSortKeeps.

Lemma frame_of_sort (data : option DataFrame) :
  frame_of data = sort_values_month_org (default [] data).
Proof. unfold frame_of. by destruct (default [] data). Qed.

(** X20: the sort of the fetched rows is stable: rows with the same month
    and the same organization name are in the fetched frame in the order in
    which the backend returned them. *)
Theorem frame_of_keeps_backend_order (data : option DataFrame) (m o : string) :
  rows_of_month_org m o (frame_of data) =
    rows_of_month_org m o (default [] data).
Proof.
  rewrite frame_of_sort.
  unfold rows_of_month_org. apply (stable_sort_filter month_org_leb).
  intros r1 r2 [Hm1 Ho1] [Hm2 Ho2]. apply month_org_leb_le.
  unfold month_org_le. rewrite Hm1, Hm2, Ho1, Ho2. done.
Qed.
(** ** The filter and the totals together *)

Lemma filter_comm {A} (P Q : A → Prop) `{!∀ x, Decision (P x)}
    `{!∀ x, Decision (Q x)} (l : list A) :
  filter P (filter Q l) = filter Q (filter P l).
Proof.
  induction l as [|x l IH]; [done|].
  rewrite !filter_cons.
  destruct (decide (P x)), (decide (Q x)); rewrite ?filter_cons;
    rewrite ?decide_True, ?decide_False by done; by rewrite IH.
Qed.

Lemma rows_of_group_filtered k df sm so :
  rows_of_group k (filtered df sm so) = filtered (rows_of_group k df) sm so.
Proof.
  unfold filtered, rows_of_group, isin.
  destruct (truthy sm), (truthy so); rewrite ?(filter_comm _ (λ r, _ ∈ so));
    rewrite ?(filter_comm _ (λ r, _ ∈ sm)); done.
Qed.

(** X21: the totals follow the row filter.  Every group in the totals of the
    filtered rows is an organization of the selection (when the selection of
    organizations is not empty), has a row that passed the filter, and each
    of its totals is the sum over those rows of the group that passed it,
    whenever that sum is within the range of 64-bit signed integers. *)
Theorem totals_follow_filter `{Argsort} (df : DataFrame)
    (sm so : list string) (g : Total) :
  g ∈ totals (filtered df sm so) →
  let rows := filtered (rows_of_group (group_key g) df) sm so in
  (so ≠ [] → (group_key g).1.2 ∈ so) ∧
  rows ≠ [] ∧
  (int64 (column_sum report_count rows) →
   total_reports g = column_sum report_count rows) ∧
  (int64 (column_sum session_count rows) →
   total_sessions g = column_sum session_count rows).
Proof.
  intros Hg%elem_of_totals rows. subst rows.
  pose proof (elem_of_groupby_agg_fit _ _ Hg) as [Hreports Hsessions].
  apply elem_of_groupby_agg in Hg as (Hrows & _).
  rewrite rows_of_group_filtered in Hrows, Hreports, Hsessions.
  split_and!; [|done..].
  intros Hso.
  destruct (filtered (rows_of_group (group_key g) df) sm so) as [|r rows] eqn:Hf;
    [done|].
  assert (r ∈ filtered (rows_of_group (group_key g) df) sm so) as Hr
    by (rewrite Hf; by left).
  apply elem_of_filtered in Hr as (Hgroup & _ & Horg).
  apply list_elem_of_filter in Hgroup as [Hkey _].
  unfold group_of in Hkey. destruct (orgType r); [|done].
  injection Hkey as <-. simpl. by apply Horg.
Qed.

Lemma totals_follow_filter_witness :
  let g := {| group_key := ("2", "B", "PaAN"); total_sessions := 7;
              total_reports := 10 |} in
  (["B"] ≠ [] → (group_key g).1.2 ∈ ["B"]) ∧
  total_reports g =
    column_sum report_count
      (filtered (rows_of_group (group_key g) [row_a; row_b; row_b_tie])
         ["2024-02"] ["B"]).
Proof.
  intros g.
  destruct (@totals_follow_filter stable_argsort [row_a; row_b; row_b_tie]
              ["2024-02"] ["B"] g) as (Horg & _ & Hreports & _).
  { apply (bool_decide_unpack _). by vm_compute. }
  split; [exact Horg|]. apply Hreports. by vm_compute.
Defined.
